(** * MCPrism gateway: a shallow embedding of the progressive-disclosure POC

    Sources embedded here:
    - [apps/gateway/src/index.ts]: the [tools] table, the lazily loaded
      embedder, [searchTools] and the five HTTP handlers;
    - the population script ([populate], [SAMPLE_TOOLS]).

    External collaborators are parameters of the definitions that call
    them: [pipeline] and [cos_sim] of [@xenova/transformers], and the
    runtime's [JSON.stringify] / [JSON.parse].

    Layout: the embedding ([JS], [Sqlite], [Json], [Gateway], [Populate]),
    the vocabulary of the statements and the concrete inputs ([Spec],
    [Fixture]), then the lemmas and the theorems, grouped by operation. *)

From Stdlib Require Import List String Ascii ZArith QArith Bool Lia Lqa.
From Stdlib Require Import Permutation Sorted DecimalString.
Import ListNotations.

Set Warnings "-register-all".
Local Open Scope string_scope.

(** Stable insertion sort: [after a b] says that [a] must be placed behind
    [b].  An element is pushed past exactly the elements it must follow, so
    elements that are not ordered by [after] keep their relative order. *)
Section StableSort.
Context {A : Type} (after : A -> A -> bool).

Fixpoint insert (a : A) (sorted : list A) : list A :=
  match sorted with
  | [] => [a]
  | b :: rest => if after a b then b :: insert a rest else a :: b :: rest
  end.

Definition stable_sort (l : list A) : list A := fold_right insert [] l.
End StableSort.

(* ===================================================================== *)
(** ** JavaScript values                                                  *)
(* ===================================================================== *)

Module JS.

(** A JS [number].  Every finite double is a rational, so a finite number is
    modelled by the rational it denotes; [NaN] is kept apart because the
    [sort] comparator of [searchTools] treats it as "no order".  Infinities
    are left out: [cos_sim] divides a finite dot product by a product of
    finite norms, which yields a finite value or [NaN]. *)
Inductive number : Type :=
| NaN
| Fin (q : Q).

(** [a - b] on numbers.  For finite doubles the rounded difference has the
    sign of the exact one (gradual underflow), which is all [sort] reads. *)
Definition sub (a b : number) : number :=
  match a, b with
  | Fin x, Fin y => Fin (x - y)
  | _, _ => NaN
  end.

(** [v > 0], false on [NaN]. *)
Definition positive (v : number) : bool :=
  match v with
  | Fin q => negb (Qle_bool q 0)
  | NaN => false
  end.

(** A [Float32Array], and equally the BLOB holding its bytes: the sequence of
    32-bit floats it encodes.  The byte layout itself is not modelled. *)
Definition Float32Array : Type := list number.

(** Values that flow through the handlers.  An object is its list of own
    properties in insertion order. *)
Inductive value : Type :=
| Null
| Bool (b : bool)
| Num (n : number)
| Str (s : string)
| Buffer (data : Float32Array)
| Arr (items : list value)
| Obj (props : list (string * value)).

(** The outcome of an expression that may throw; [Throw] carries
    [error.message]. *)
Inductive result (A : Type) : Type :=
| Ok (a : A)
| Throw (message : string).
Arguments Ok {A} a.
Arguments Throw {A} message.

Definition bind {A B} (r : result A) (k : A -> result B) : result B :=
  match r with
  | Ok a => k a
  | Throw m => Throw m
  end.

Definition num_of_Z (z : Z) : value := Num (Fin (inject_Z z)).

(** Truthiness ([!x] is its negation).  [None] stands for [undefined]. *)
Definition truthy (o : option value) : bool :=
  match o with
  | None => false
  | Some Null => false
  | Some (Bool b) => b
  | Some (Num NaN) => false
  | Some (Num (Fin q)) => negb (Qeq_bool q 0)
  | Some (Str s) => negb (s =? "")
  | Some (Buffer _) => true
  | Some (Arr _) => true
  | Some (Obj _) => true
  end.

(** Property lookup in a property list; [None] is [undefined]. *)
Fixpoint lookup (k : string) (props : list (string * value)) : option value :=
  match props with
  | [] => None
  | (k', v) :: rest => if k =? k' then Some v else lookup k rest
  end.

(** [o.k] *)
Definition get (k : string) (o : value) : option value :=
  match o with
  | Obj props => lookup k props
  | _ => None
  end.

(** [o[k] = v] on a property list: an existing key keeps its place. *)
Fixpoint set (k : string) (v : value) (props : list (string * value))
  : list (string * value) :=
  match props with
  | [] => [(k, v)]
  | (k', v') :: rest =>
      if k =? k' then (k, v) :: rest else (k', v') :: set k v rest
  end.

(** [{ ...o, more }]: the own properties of [o] in order, then each
    property of [more] assigned in turn. *)
Definition spread (o : value) (more : list (string * value)) : value :=
  let base := match o with Obj props => props | _ => [] end in
  Obj (fold_left (fun acc kv => set (fst kv) (snd kv) acc) more base).

Definition keys (o : value) : list string :=
  match o with
  | Obj props => map fst props
  | _ => []
  end.

(** The operand of an arithmetic operator, for the operand kinds the gateway
    produces (numbers, and [undefined] for a missing property). *)
Definition to_number (o : option value) : number :=
  match o with
  | Some (Num n) => n
  | Some Null => Fin 0
  | Some (Bool true) => Fin 1
  | Some (Bool false) => Fin 0
  | _ => NaN
  end.

(** [Array.prototype.sort(comparefn)].  ECMAScript requires the sort to be
    stable, so for a comparator that is a consistent ordering the result is
    the one stable sorted arrangement, whatever the engine's algorithm; it
    is computed here by stable insertion.  [comparefn a b > 0] moves [a]
    behind [b]; zero, negative and [NaN] results leave [a] in front.  With an
    inconsistent comparator (a [NaN] among the keys) the standard leaves the
    order to the engine. *)
Definition sort {A} (comparefn : A -> A -> number) (l : list A) : list A :=
  stable_sort (fun a b => positive (comparefn a b)) l.

(** [arr.slice(0, end)] for an integer [end]: a negative [end] counts from
    the back of the array. *)
Definition slice0 {A} (l : list A) (end_ : Z) : list A :=
  let len := Z.of_nat (List.length l) in
  let final := if (end_ <? 0)%Z then Z.max (len + end_) 0 else Z.min end_ len in
  firstn (Z.to_nat final) l.

(** [arr.map(f)] where [f] may throw: the first throw aborts the map. *)
Fixpoint map_throwing {A B} (f : A -> result B) (l : list A) : result (list B) :=
  match l with
  | [] => Ok []
  | a :: rest =>
      bind (f a) (fun b => bind (map_throwing f rest) (fun bs => Ok (b :: bs)))
  end.

End JS.

(* ===================================================================== *)
(** ** The [tools] table (bun:sqlite)                                     *)
(* ===================================================================== *)

Module Sqlite.
Import JS.

(** One row of
    [tools(id INTEGER PRIMARY KEY AUTOINCREMENT, name TEXT NOT NULL UNIQUE,
           description TEXT NOT NULL, server TEXT NOT NULL, category TEXT,
           input_schema TEXT NOT NULL, embedding BLOB)].
    The nullable columns are options. *)
Record row : Type := mkRow {
  id : Z;
  name : string;
  description : string;
  server : string;
  category : option string;
  input_schema : string;
  embedding : option Float32Array
}.

(** The table, rows in rowid order (the order of a scan without ORDER BY),
    and the AUTOINCREMENT counter kept in [sqlite_sequence]. *)
Record database : Type := mkDatabase {
  tools : list row;
  sqlite_sequence : Z
}.

Definition empty : database := {| tools := []; sqlite_sequence := 0 |}.

Definition max_rowid (rows : list row) : Z :=
  fold_right (fun r m => Z.max (id r) m) 0%Z rows.

(** [INSERT OR REPLACE INTO tools (name, description, server, category,
    input_schema, embedding) VALUES (?, ?, ?, ?, ?, ?)]: the rows that
    conflict on the UNIQUE [name] are deleted, then the new row is stored
    under a fresh rowid, larger than every rowid used so far. *)
Definition insert_or_replace (name' description' server' : string)
    (category' : option string) (input_schema' : string)
    (embedding' : option Float32Array) (d : database) : database :=
  let rowid := (Z.max (sqlite_sequence d) (max_rowid (tools d)) + 1)%Z in
  let kept := filter (fun r => negb (name r =? name')) (tools d) in
  {| tools := kept ++ [ {| id := rowid; name := name';
                           description := description'; server := server';
                           category := category';
                           input_schema := input_schema';
                           embedding := embedding' |} ];
     sqlite_sequence := rowid |}.

Definition text_or_null (o : option string) : value :=
  match o with
  | Some s => Str s
  | None => Null
  end.

Definition blob_or_null (o : option Float32Array) : value :=
  match o with
  | Some data => Buffer data
  | None => Null
  end.

(** The JS value bun:sqlite returns for a column of a row. *)
Definition column (c : string) (r : row) : value :=
  if c =? "id" then num_of_Z (id r)
  else if c =? "name" then Str (name r)
  else if c =? "description" then Str (description r)
  else if c =? "server" then Str (server r)
  else if c =? "category" then text_or_null (category r)
  else if c =? "input_schema" then Str (input_schema r)
  else if c =? "embedding" then blob_or_null (embedding r)
  else Null.

(** The result object of [SELECT columns ...] for one row. *)
Definition select (columns : list string) (r : row) : value :=
  Obj (map (fun c => (c, column c r)) columns).

(** [ORDER BY server, name] under the BINARY collation.  [name] is UNIQUE,
    so no two rows compare equal and the order does not depend on the
    sorter. *)
Definition after_server_name (a b : row) : bool :=
  match String.compare (server a) (server b) with
  | Gt => true
  | Lt => false
  | Eq => String.ltb (name b) (name a)
  end.

Definition order_by_server_name (rows : list row) : list row :=
  stable_sort after_server_name rows.

(** [... WHERE name = ?] followed by [.get(n)]: the first matching row, or
    [null]. *)
Definition where_name (n : string) (rows : list row) : option row :=
  find (fun r => name r =? n) rows.

End Sqlite.

(* ===================================================================== *)
(** ** A reference JSON serializer and parser                             *)
(* ===================================================================== *)

(** [JSON.stringify] and [JSON.parse] are parameters of the code that calls
    them.  This module is a small concrete instance, used to run the code on
    concrete documents: it covers [null], booleans, integral numbers,
    strings without control characters, arrays and objects, and throws on
    anything else. *)
Module Json.
Import JS.

Definition dquote : ascii := ascii_of_nat 34.
Definition backslash : ascii := ascii_of_nat 92.

Fixpoint escape (s : string) : option string :=
  match s with
  | EmptyString => Some EmptyString
  | String c rest =>
      match escape rest with
      | None => None
      | Some r =>
          if ((c =? dquote) || (c =? backslash))%char
          then Some (String backslash (String c r))
          else if (nat_of_ascii c <? 32)%nat then None
          else Some (String c r)
      end
  end.

Definition quote (s : string) : option string :=
  option_map (fun e => String dquote (e ++ String dquote EmptyString))
             (escape s).

Definition decimal (z : Z) : string :=
  NilZero.string_of_int (Z.to_int z).

Fixpoint print (v : value) : option string :=
  match v with
  | Null => Some "null"
  | Bool b => Some (if b then "true" else "false")
  | Num NaN => Some "null"
  | Num (Fin q) =>
      if (Qden q =? 1)%positive then Some (decimal (Qnum q)) else None
  | Str s => quote s
  | Buffer _ => None
  | Arr items =>
      let fix elements (l : list value) : option string :=
        match l with
        | [] => Some ""
        | x :: rest =>
            match rest with
            | [] => print x
            | _ :: _ =>
                match print x, elements rest with
                | Some a, Some b => Some (a ++ "," ++ b)
                | _, _ => None
                end
            end
        end in
      option_map (fun body => "[" ++ body ++ "]") (elements items)
  | Obj props =>
      let fix members (l : list (string * value)) : option string :=
        match l with
        | [] => Some ""
        | (k, x) :: rest =>
            let this :=
              match quote k, print x with
              | Some k', Some x' => Some (k' ++ ":" ++ x')
              | _, _ => None
              end in
            match rest with
            | [] => this
            | _ :: _ =>
                match this, members rest with
                | Some a, Some b => Some (a ++ "," ++ b)
                | _, _ => None
                end
            end
        end in
      option_map (fun body => "{" ++ body ++ "}") (members props)
  end.

Definition stringify (v : value) : result string :=
  match print v with
  | Some s => Ok s
  | None => Throw "TypeError: value outside the reference serializer"
  end.

Definition is_ws (c : ascii) : bool :=
  let n := nat_of_ascii c in
  ((n =? 32) || (n =? 9) || (n =? 10) || (n =? 13))%nat.

Fixpoint skip_ws (s : string) : string :=
  match s with
  | String c rest => if is_ws c then skip_ws rest else s
  | EmptyString => s
  end.

(** The rest of a string literal, after its opening quote. *)
Fixpoint string_body (s : string) : option (string * string) :=
  match s with
  | EmptyString => None
  | String c rest =>
      if (c =? dquote)%char then Some (EmptyString, rest)
      else if (c =? backslash)%char then
        match rest with
        | String e rest' =>
            if ((e =? dquote) || (e =? backslash))%char then
              match string_body rest' with
              | Some (body, tail) => Some (String e body, tail)
              | None => None
              end
            else None
        | EmptyString => None
        end
      else
        match string_body rest with
        | Some (body, tail) => Some (String c body, tail)
        | None => None
        end
  end.

Definition digit (c : ascii) : option Z :=
  let n := nat_of_ascii c in
  if ((48 <=? n) && (n <=? 57))%nat then Some (Z.of_nat (n - 48)) else None.

Fixpoint digits (acc : Z) (s : string) : Z * string :=
  match s with
  | String c rest =>
      match digit c with
      | Some d => digits (10 * acc + d)%Z rest
      | None => (acc, s)
      end
  | EmptyString => (acc, s)
  end.

(** [literal w s]: [s] without its prefix [w]. *)
Fixpoint literal (w s : string) : option string :=
  match w, s with
  | EmptyString, _ => Some s
  | String a w', String b s' => if (a =? b)%char then literal w' s' else None
  | String _ _, EmptyString => None
  end.

(** The object built from the members of an object literal, read left to
    right: a repeated key keeps its first place and its last value. *)
Definition object (ms : list (string * value)) : value :=
  Obj (fold_left (fun acc kv => set (fst kv) (snd kv) acc) ms []).

Fixpoint value_ (fuel : nat) (s : string) {struct fuel}
  : option (value * string) :=
  match fuel with
  | O => None
  | S fuel' =>
      match skip_ws s with
      | EmptyString => None
      | String c rest =>
          if (c =? dquote)%char then
            option_map (fun '(body, tail) => (Str body, tail)) (string_body rest)
          else if (c =? "[")%char then
            match skip_ws rest with
            | String "]" tail => Some (Arr [], tail)
            | _ => option_map (fun '(vs, tail) => (Arr vs, tail))
                              (elements fuel' rest)
            end
          else if (c =? "{")%char then
            match skip_ws rest with
            | String "}" tail => Some (Obj [], tail)
            | _ => option_map (fun '(ms, tail) => (object ms, tail))
                              (members fuel' rest)
            end
          else if (c =? "-")%char then
            match rest with
            | String d _ =>
                match digit d with
                | Some _ => let '(n, tail) := digits 0 rest in
                            Some (num_of_Z (- n), tail)
                | None => None
                end
            | EmptyString => None
            end
          else
            match digit c with
            | Some _ => let '(n, tail) := digits 0 (String c rest) in
                        Some (num_of_Z n, tail)
            | None =>
                match literal "null" (String c rest),
                      literal "true" (String c rest),
                      literal "false" (String c rest) with
                | Some tail, _, _ => Some (Null, tail)
                | _, Some tail, _ => Some (Bool true, tail)
                | _, _, Some tail => Some (Bool false, tail)
                | _, _, _ => None
                end
            end
      end
  end
with elements (fuel : nat) (s : string) {struct fuel}
  : option (list value * string) :=
  match fuel with
  | O => None
  | S fuel' =>
      match value_ fuel' s with
      | None => None
      | Some (v, rest) =>
          match skip_ws rest with
          | String "," rest' =>
              option_map (fun '(vs, tail) => (v :: vs, tail))
                         (elements fuel' rest')
          | String "]" tail => Some ([v], tail)
          | _ => None
          end
      end
  end
with members (fuel : nat) (s : string) {struct fuel}
  : option (list (string * value) * string) :=
  match fuel with
  | O => None
  | S fuel' =>
      match skip_ws s with
      | String q rest =>
          if (q =? dquote)%char then
            match string_body rest with
            | None => None
            | Some (k, rest1) =>
                match skip_ws rest1 with
                | String ":" rest2 =>
                    match value_ fuel' rest2 with
                    | None => None
                    | Some (v, rest3) =>
                        match skip_ws rest3 with
                        | String "," rest4 =>
                            option_map (fun '(ms, tail) => ((k, v) :: ms, tail))
                                       (members fuel' rest4)
                        | String "}" tail => Some ([(k, v)], tail)
                        | _ => None
                        end
                    end
                | _ => None
                end
            end
          else None
      | EmptyString => None
      end
  end.

Definition parse (s : string) : result value :=
  match value_ (2 * String.length s + 2) s with
  | Some (v, rest) =>
      match skip_ws rest with
      | EmptyString => Ok v
      | String _ _ => Throw "SyntaxError: Unexpected token in JSON"
      end
  | None => Throw "SyntaxError: Unexpected token in JSON"
  end.

End Json.

(* ===================================================================== *)
(** ** The gateway ([apps/gateway/src/index.ts])                          *)
(* ===================================================================== *)

Module Gateway.
Import JS Sqlite.

(** A loaded feature-extraction model: [model(text, {pooling, normalize})]
    followed by [.data]; the call may throw. *)
Definition model : Type := string -> result Float32Array.

(** The module-level state of the process: the open database, the
    [embedder] variable ([None] while it is [undefined]) and what has been
    written to the console since start-up.  [pipeline_calls] is a ghost
    counter of the invocations of [pipeline(...)] made so far. *)
Record world : Type := mkWorld {
  db : database;
  embedder : option model;
  console : list string;
  pipeline_calls : nat
}.

Definition boot (d : database) : world :=
  {| db := d; embedder := None; console := []; pipeline_calls := 0 |}.

Definition console_log (line : string) (w : world) : world :=
  {| db := db w; embedder := embedder w; console := console w ++ [line];
     pipeline_calls := pipeline_calls w |}.

(** Request bodies. An absent property is [None]. *)
Record search_body : Type := mkSearchBody {
  query : option string;
  limit : option Z
}.

Record execute_body : Type := mkExecuteBody {
  tool : option value;
  args : option value
}.

Definition error (message : string) : value := Obj [("error", Str message)].

Section Handlers.
(** [pipeline k]: the outcome of the [k]-th invocation of
    [pipeline('feature-extraction', 'Xenova/all-MiniLM-L6-v2')]. *)
Variable pipeline : nat -> result model.
(** [cos_sim] of [@xenova/transformers]. *)
Variable cos_sim : Float32Array -> Float32Array -> number.
Variable JSON_parse : string -> result value.

(** *** [getEmbedder], cut at its [await] *)

(** From the call to the [await]: either the guard [!embedder] is false
    and the function returns [embedder] ([Some m]), or it logs, invokes
    [pipeline] and suspends ([None]). *)
Definition getEmbedder_enter (w : world) : option model * world :=
  match embedder w with
  | Some m => (Some m, w)
  | None =>
      let w1 := console_log "Loading embedding model (one-time, ~22MB)..." w in
      (None, {| db := db w1; embedder := embedder w1; console := console w1;
                pipeline_calls := S (pipeline_calls w1) |})
  end.

(** From the settling of the awaited promise to the return. *)
Definition getEmbedder_resume (loaded : result model) (w : world)
  : result model * world :=
  match loaded with
  | Ok m =>
      let w1 := {| db := db w; embedder := Some m; console := console w;
                   pipeline_calls := pipeline_calls w |} in
      (Ok m, console_log "Embedder ready!" w1)
  | Throw e => (Throw e, w)
  end.

(** One caller at a time: nothing runs between the two halves. *)
Definition getEmbedder (w : world) : result model * world :=
  match getEmbedder_enter w with
  | (Some m, w1) => (Ok m, w1)
  | (None, w1) => getEmbedder_resume (pipeline (pipeline_calls w1)) w1
  end.

(** *** Callers that overlap

    A call of [getEmbedder] in flight.  The scheduler runs one half of one
    call at a time, which is how the event loop interleaves async
    functions. *)
Inductive call : Type :=
| Called
| Awaiting (k : nat)
| Returned (r : result model).

Definition step_call (c : call) (w : world) : call * world :=
  match c with
  | Called =>
      match getEmbedder_enter w with
      | (Some m, w1) => (Returned (Ok m), w1)
      | (None, w1) => (Awaiting (pipeline_calls w1), w1)
      end
  | Awaiting k =>
      let '(r, w1) := getEmbedder_resume (pipeline k) w in (Returned r, w1)
  | Returned r => (Returned r, w)
  end.

Fixpoint step_nth (i : nat) (calls : list call) (w : world)
  : list call * world :=
  match calls, i with
  | [], _ => ([], w)
  | c :: rest, O => let '(c', w1) := step_call c w in (c' :: rest, w1)
  | c :: rest, S j => let '(rest', w1) := step_nth j rest w in (c :: rest', w1)
  end.

(** Run the calls along a schedule of call indices. *)
Fixpoint run (schedule : list nat) (calls : list call) (w : world)
  : list call * world :=
  match schedule with
  | [] => (calls, w)
  | i :: later => let '(calls', w1) := step_nth i calls w in run later calls' w1
  end.

(** [n] calls issued before the model has loaded: each runs up to its
    [await], then the loads settle in turn. *)
Definition simultaneous (n : nat) : list nat := seq 0 n ++ seq 0 n.

(** *** [generateEmbedding] *)
Definition generateEmbedding (text : string) (w : world)
  : result Float32Array * world :=
  match getEmbedder w with
  | (Ok m, w1) => (m text, w1)
  | (Throw e, w1) => (Throw e, w1)
  end.

(** *** [searchTools] *)

(** The callback of [tools.map].  [Buffer.from(null)] throws. *)
Definition score (queryEmbedding : Float32Array) (tool : row) : result value :=
  bind
    (match embedding tool with
     | Some data => Ok data
     | None =>
         Throw "The first argument must be of type string or an instance of Buffer, ArrayBuffer, or Array or an Array-like Object. Received null"
     end)
    (fun toolEmbedding =>
       let similarity := cos_sim queryEmbedding toolEmbedding in
       Ok (Obj [("name", Str (name tool));
                ("description", Str (description tool));
                ("server", Str (server tool));
                ("category", text_or_null (category tool));
                ("similarity", Num similarity)])).

(** [(a, b) => b.similarity - a.similarity] *)
Definition by_similarity (a b : value) : number :=
  sub (to_number (get "similarity" b)) (to_number (get "similarity" a)).

Definition searchTools (queryEmbedding : Float32Array) (limit : option Z)
    (d : database) : result (list value) :=
  let limit := match limit with Some n => n | None => 5%Z end in
  let tools := tools d in
  bind (map_throwing (score queryEmbedding) tools)
       (fun results => Ok (slice0 (sort by_similarity results) limit)).

(** *** The handlers *)

(** [GET /health] *)
Definition get_health (w : world) : result value * world :=
  (Ok (Obj [("status", Str "ok");
            ("tools", num_of_Z (Z.of_nat (List.length (tools (db w)))))]), w).

(** [GET /tools].  The handler takes no argument: the request, with its
    query-string parameters [params], is not looked at. *)
Definition get_tools (params : list (string * string)) (w : world)
  : result value * world :=
  let tools :=
    map (select ["name"; "description"; "server"; "category"])
        (order_by_server_name (tools (db w))) in
  (Ok (Obj [("tools", Arr tools)]), w).

(** [POST /search] *)
Definition post_search (body : search_body) (w : world)
  : result value * world :=
  let limit := match limit body with Some n => n | None => 5%Z end in
  if negb (truthy (option_map Str (query body))) then
    (Ok (error "Query required"), w)
  else
    let query := match query body with Some q => q | None => "" end in
    match generateEmbedding query w with
    | (Ok queryEmbedding, w1) =>
        match searchTools queryEmbedding (Some limit) (db w1) with
        | Ok results => (Ok (Obj [("tools", Arr results)]), w1)
        | Throw message => (Ok (error message), w1)
        end
    | (Throw message, w1) => (Ok (error message), w1)
    end.

(** [GET /tool/:name] *)
Definition get_tool (name : string) (w : world) : result value * world :=
  match where_name name (tools (db w)) with
  | None => (Ok (error "Tool not found"), w)
  | Some r =>
      let tool :=
        select ["name"; "description"; "server"; "category"; "input_schema"] r in
      (bind (JSON_parse (input_schema r))
            (fun schema => Ok (spread tool [("inputSchema", schema)])), w)
  end.

(** [POST /execute] *)
Definition post_execute (body : execute_body) (w : world)
  : result value * world :=
  match tool body, args body with
  | Some tool, Some args =>
      if negb (truthy (Some tool)) || negb (truthy (Some args)) then
        (Ok (error "Tool and args required"), w)
      else
        (Ok (Obj [("success", Bool true);
                  ("tool", tool);
                  ("args", args);
                  ("message", Str "POC: Tool execution would happen here. In production, this would forward to the actual MCP server.");
                  ("note", Str "To implement: Forward request to MCP server based on tool.server field")]), w)
  | _, _ => (Ok (error "Tool and args required"), w)
  end.

End Handlers.
End Gateway.

(* ===================================================================== *)
(** ** The population script                                              *)
(* ===================================================================== *)

Module Populate.
Import JS.

(** An element of [SAMPLE_TOOLS]. *)
Record tool : Type := mkTool {
  name : string;
  description : string;
  server : string;
  category : string;
  inputSchema : value
}.

Definition prop_string (description : string) : value :=
  Obj [("type", Str "string"); ("description", Str description)].

Definition strings (l : list string) : value := Arr (map Str l).

Definition SAMPLE_TOOLS : list tool :=
  [ (* Filesystem tools *)
    {| name := "read_file";
       description := "Read contents from a file on the local filesystem";
       server := "filesystem";
       category := "read";
       inputSchema :=
         Obj [("type", Str "object");
              ("properties",
               Obj [("path", prop_string "Absolute path to the file")]);
              ("required", strings ["path"])] |};
    {| name := "write_file";
       description := "Write content to a file on the local filesystem";
       server := "filesystem";
       category := "write";
       inputSchema :=
         Obj [("type", Str "object");
              ("properties",
               Obj [("path", prop_string "Absolute path to the file");
                    ("content", prop_string "Content to write")]);
              ("required", strings ["path"; "content"])] |};
    {| name := "list_directory";
       description := "List files and directories in a path";
       server := "filesystem";
       category := "read";
       inputSchema :=
         Obj [("type", Str "object");
              ("properties",
               Obj [("path", prop_string "Directory path to list")]);
              ("required", strings ["path"])] |};
    {| name := "search_files";
       description := "Search for files matching a pattern";
       server := "filesystem";
       category := "read";
       inputSchema :=
         Obj [("type", Str "object");
              ("properties",
               Obj [("path", prop_string "Directory to search in");
                    ("pattern", prop_string "Search pattern (glob or regex)")]);
              ("required", strings ["path"; "pattern"])] |};
    (* GitHub tools (read-only) *)
    {| name := "get_file_contents";
       description :=
         "Get the contents of a file or directory from a GitHub repository";
       server := "github";
       category := "read";
       inputSchema :=
         Obj [("type", Str "object");
              ("properties",
               Obj [("owner",
                     prop_string "Repository owner (username or organization)");
                    ("repo", prop_string "Repository name");
                    ("path", prop_string "Path to file/directory")]);
              ("required", strings ["owner"; "repo"])] |};
    {| name := "search_code";
       description :=
         "Search for code across GitHub repositories using GitHub's native search";
       server := "github";
       category := "read";
       inputSchema :=
         Obj [("type", Str "object");
              ("properties",
               Obj [("query",
                     prop_string "Search query using GitHub code search syntax")]);
              ("required", strings ["query"])] |};
    {| name := "list_issues";
       description := "List issues in a GitHub repository";
       server := "github";
       category := "read";
       inputSchema :=
         Obj [("type", Str "object");
              ("properties",
               Obj [("owner", Obj [("type", Str "string")]);
                    ("repo", Obj [("type", Str "string")])]);
              ("required", strings ["owner"; "repo"])] |};
    {| name := "get_commit";
       description := "Get details for a commit from a GitHub repository";
       server := "github";
       category := "read";
       inputSchema :=
         Obj [("type", Str "object");
              ("properties",
               Obj [("owner", Obj [("type", Str "string")]);
                    ("repo", Obj [("type", Str "string")]);
                    ("sha", prop_string "Commit SHA, branch name, or tag name")]);
              ("required", strings ["owner"; "repo"; "sha"])] |};
    (* Browser tools (Chrome DevTools) *)
    {| name := "navigate_page";
       description := "Navigate browser to a URL";
       server := "chrome-devtools";
       category := "browser";
       inputSchema :=
         Obj [("type", Str "object");
              ("properties", Obj [("url", prop_string "URL to navigate to")]);
              ("required", strings ["url"])] |};
    {| name := "take_screenshot";
       description :=
         "Take a screenshot of the current browser page or specific element";
       server := "chrome-devtools";
       category := "browser";
       inputSchema :=
         Obj [("type", Str "object");
              ("properties",
               Obj [("fullPage",
                     Obj [("type", Str "boolean");
                          ("description", Str "Capture full scrollable page")])])] |};
    {| name := "click";
       description := "Click on an element in the browser page";
       server := "chrome-devtools";
       category := "browser";
       inputSchema :=
         Obj [("type", Str "object");
              ("properties",
               Obj [("uid", prop_string "Element UID from page snapshot")]);
              ("required", strings ["uid"])] |};
    {| name := "fill";
       description := "Type text into input field or select option";
       server := "chrome-devtools";
       category := "browser";
       inputSchema :=
         Obj [("type", Str "object");
              ("properties",
               Obj [("uid", prop_string "Element UID");
                    ("value", prop_string "Value to fill in")]);
              ("required", strings ["uid"; "value"])] |} ].

Definition newline : string := String (ascii_of_nat 10) EmptyString.

Definition double_quote : string := String (ascii_of_nat 34) EmptyString.

(** The five lines [populate] prints after the loop:
    the count, then how to start the gateway and how to test a search. *)
Definition closing_lines (count : Z) : list string :=
  [ newline ++ "✅ Populated " ++ Json.decimal count ++ " tools";
    newline ++ "Start the gateway:";
    "  bun run src/index.ts";
    newline ++ "Test search:";
    "  curl -X POST http://localhost:3001/search -H " ++ double_quote
      ++ "Content-Type: application/json" ++ double_quote ++ " -d '{"
      ++ double_quote ++ "query" ++ double_quote ++ ": " ++ double_quote
      ++ "read file" ++ double_quote ++ "}'" ].

Section Script.
Variable pipeline : nat -> result Gateway.model.
Variable JSON_stringify : value -> result string.

(** The statement run once per tool: [stmt.run(tool.name,
    tool.description, tool.server, tool.category,
    JSON.stringify(tool.inputSchema), embedding)]. *)
Definition upsert (t : tool) (schema : string) (embedding : Float32Array)
    (d : Sqlite.database) : Sqlite.database :=
  Sqlite.insert_or_replace (name t) (description t) (server t)
    (Some (category t)) schema (Some embedding) d.

(** The [for (const tool of tools)] loop: the state is the database, the
    console and [count]; a throw leaves the loop with the rows written so
    far in place. *)
Fixpoint populate_loop (embedder : Gateway.model) (tools : list tool)
    (count : Z) (d : Sqlite.database) (out : list string)
  : result Z * Sqlite.database * list string :=
  match tools with
  | [] => (Ok count, d, out)
  | t :: rest =>
      let text := name t ++ " " ++ description t in
      match embedder text with
      | Throw e => (Throw e, d, out)
      | Ok data =>
          match JSON_stringify (inputSchema t) with
          | Throw e => (Throw e, d, out)
          | Ok schema =>
              populate_loop embedder rest (count + 1)%Z
                (upsert t schema data d)
                (out ++ ["✓ Added " ++ name t ++ " (" ++ server t ++ ")"])
          end
      end
  end.

(** [populate()] over a list of tools; the script runs it on
    [SAMPLE_TOOLS].  The third component is what [console.log] has
    written: the closing lines are printed when the loop has run to its
    end, not when it threw ([populate().catch(console.error)] sends the
    error to the error stream, which is not part of it). *)
Definition populate_with (tools : list tool) (d : Sqlite.database)
  : result Z * Sqlite.database * list string :=
  let out := ["Loading embedding model..."] in
  match pipeline 1 with
  | Throw e => (Throw e, d, out)
  | Ok embedder =>
      match populate_loop embedder tools 0%Z d
              (out ++ ["Model loaded!" ++ newline]) with
      | (Ok count, d', out') => (Ok count, d', (out' ++ closing_lines count)%list)
      | (Throw e, d', out') => (Throw e, d', out')
      end
  end.

Definition populate (d : Sqlite.database)
  : result Z * Sqlite.database * list string :=
  populate_with SAMPLE_TOOLS d.

End Script.
End Populate.

(* ===================================================================== *)
(** ** Vocabulary of the statements, and concrete inputs                  *)
(* ===================================================================== *)

Module Spec.
Import JS Sqlite Gateway.

(** The [similarity] an entry of a search result carries. *)
Definition similarity (entry : value) : number :=
  to_number (get "similarity" entry).

(** [a >= b] between two numbers, neither of them [NaN]. *)
Definition num_ge (a b : number) : Prop :=
  match a, b with
  | Fin x, Fin y => (y <= x)%Q
  | _, _ => False
  end.

Definition non_increasing (results : list value) : Prop :=
  Sorted (fun a b => num_ge (similarity a) (similarity b)) results.

(** The entries of similarity [s]. *)
Definition has_similarity (s : Q) (entry : value) : bool :=
  match similarity entry with
  | Fin x => Qeq_bool x s
  | NaN => false
  end.

(** The comparator handed to [sort], as the placement test it induces. *)
Definition behind (a b : value) : bool := positive (by_similarity a b).

(** [l] starts with [p]. *)
Definition prefix {A} (p l : list A) : Prop := exists rest, l = (p ++ rest)%list.

(** The entries under [tools] of a response body, none for any other
    body. *)
Definition listed (response : result value) : list value :=
  match response with
  | Ok (Obj props) =>
      match lookup "tools" props with
      | Some (Arr items) => items
      | _ => []
      end
  | _ => []
  end.


Definition names (d : database) : list string := map name (tools d).

Definition all_embedded (d : database) : Prop :=
  Forall (fun r => embedding r <> None) (tools d).

(** Boolean forms, to decide the conditions on a concrete table. *)
Definition embedded (r : row) : bool :=
  match embedding r with
  | Some _ => true
  | None => false
  end.

Definition is_number (n : number) : bool :=
  match n with
  | Fin _ => true
  | NaN => false
  end.

Fixpoint distinct (l : list string) : bool :=
  match l with
  | [] => true
  | x :: rest => negb (existsb (String.eqb x) rest) && distinct rest
  end.

(** The [inputSchema] of the answer of a schema fetch, if it has one. *)
Definition fetched_schema (response : result value) : option value :=
  match response with
  | Ok o => get "inputSchema" o
  | Throw _ => None
  end.

(** The tool, the schema text and the embedding of an upsert. *)
Definition op_tool (op : Populate.tool * string * Float32Array)
  : Populate.tool := fst (fst op).

Definition op_text (op : Populate.tool * string * Float32Array) : string :=
  snd (fst op).

(** The row an [INSERT OR REPLACE] stores, under its fresh rowid. *)
Definition stored_row (n desc srv : string) (cat : option string)
    (schema : string) (emb : option Float32Array) (d : database) : row :=
  {| id := (Z.max (sqlite_sequence d) (max_rowid (tools d)) + 1)%Z;
     name := n; description := desc; server := srv; category := cat;
     input_schema := schema; embedding := emb |}.

(** A run of upserts, each with the schema text and the embedding bound to
    the statement. *)
Definition upserts (ops : list (Populate.tool * string * Float32Array))
    (d : database) : database :=
  fold_left (fun acc op => Populate.upsert (fst (fst op)) (snd (fst op)) (snd op) acc)
            ops d.

End Spec.

(** Concrete collaborators and catalogs on which the code is run. *)
Module Fixture.
Import JS Sqlite Gateway.

(** A stand-in for the loaded model: two unit vectors. *)
Definition toy_model : model :=
  fun text =>
    if String.prefix "read" text then Ok [Fin 1; Fin 0]
    else Ok [Fin (3 # 5); Fin (4 # 5)].

Definition toy_pipeline : nat -> result model := fun _ => Ok toy_model.

(** [dot] of [@xenova/transformers]: the loop runs over the first array, and
    a missing element of the second makes the sum [NaN]. *)
Fixpoint dot (a b : Float32Array) : number :=
  match a, b with
  | [], _ => Fin 0
  | Fin x :: a', Fin y :: b' =>
      match dot a' b' with
      | Fin s => Fin (x * y + s)
      | NaN => NaN
      end
  | _, _ => NaN
  end.

(** [cos_sim] on unit vectors, where both norms are 1. *)
Definition unit_cos_sim (a b : Float32Array) : number := dot a b.

Definition ready (d : database) : world :=
  {| db := d; embedder := Some toy_model; console := []; pipeline_calls := 1 |}.

(** Two tools stored with the same embedding, [zeta] first. *)
Definition tie_db : database :=
  insert_or_replace "alpha" "second tool" "github" (Some "read") "{}"
    (Some [Fin 1; Fin 0])
    (insert_or_replace "zeta" "first tool" "filesystem" (Some "read") "{}"
       (Some [Fin 1; Fin 0]) Sqlite.empty).

(** One tool whose stored embedding has three components. *)
Definition migrated_db : database :=
  insert_or_replace "read_file" "Read contents from a file on the local filesystem"
    "filesystem" (Some "read") "{}" (Some [Fin 1; Fin 0; Fin 0]) Sqlite.empty.

(** The first element of [SAMPLE_TOOLS], and the others. *)
Definition read_file : Populate.tool :=
  {| Populate.name := "read_file";
     Populate.description := "Read contents from a file on the local filesystem";
     Populate.server := "filesystem";
     Populate.category := "read";
     Populate.inputSchema :=
       Obj [("type", Str "object");
            ("properties",
             Obj [("path", Populate.prop_string "Absolute path to the file")]);
            ("required", Populate.strings ["path"])] |}.

Definition other_tools : list Populate.tool := tl Populate.SAMPLE_TOOLS.

(** The schema text and the row the population script stores for
    [read_file] on an empty table. *)
Definition read_file_text : string :=
  match Json.stringify (Populate.inputSchema read_file) with
  | Ok text => text
  | Throw _ => ""
  end.

Definition read_file_row : row :=
  {| id := 1;
     name := "read_file";
     description := "Read contents from a file on the local filesystem";
     server := "filesystem";
     category := Some "read";
     input_schema := read_file_text;
     embedding := Some [Fin 1; Fin 0] |}.

(** The upserts the population script runs for the other tools, with
    the reference serializer and the stand-in model. *)
Definition stored_text (t : Populate.tool) : string :=
  match Json.stringify (Populate.inputSchema t) with
  | Ok text => text
  | Throw _ => ""
  end.

Definition other_ops : list (Populate.tool * string * Float32Array) :=
  map (fun u => (u, stored_text u, [Fin (3 # 5); Fin (4 # 5)])) other_tools.

(** A tool whose schema document holds a [NaN]. *)
Definition clamp : Populate.tool :=
  {| Populate.name := "clamp";
     Populate.description := "Clamp a number from below";
     Populate.server := "math";
     Populate.category := "read";
     Populate.inputSchema :=
       Obj [("type", Str "number"); ("minimum", Num NaN)] |}.

(** [SAMPLE_TOOLS] and, last, a tool whose stored embedding has three
    components. *)
Definition mixed_db : database :=
  insert_or_replace "ocr_image" "Extract the text of an image" "vision"
    (Some "read") "{}" (Some [Fin 1; Fin 0; Fin 0])
    (snd (fst (Populate.populate toy_pipeline Json.stringify Sqlite.empty))).

(** [SAMPLE_TOOLS] stored by the population script. *)
Definition sample_db : database :=
  snd (fst (Populate.populate toy_pipeline Json.stringify Sqlite.empty)).

End Fixture.

(** Runs of requests, and further vocabulary. *)
Module Scenario.
Import JS Sqlite Gateway.

Section Requests.
Variable pipeline : nat -> result model.
Variable cos_sim : Float32Array -> Float32Array -> number.

(** [POST /search] requests served one after the other, each answered
    before the next one starts. *)
Fixpoint serve (bodies : list search_body) (w : world)
  : list (result value) * world :=
  match bodies with
  | [] => ([], w)
  | body :: later =>
      let '(response, w1) := post_search pipeline cos_sim body w in
      let '(responses, w2) := serve later w1 in
      (response :: responses, w2)
  end.
End Requests.

(** The rowids grow along the table. *)
Definition ascending_rowids (d : database) : Prop :=
  StronglySorted Z.lt (map id (tools d)).

(** The text [populate] embeds for a tool. *)
Definition text_of (t : Populate.tool) : string :=
  Populate.name t ++ " " ++ Populate.description t.

(** [n] is none of [ns]. *)
Definition none_of (ns : list string) (n : string) : bool :=
  negb (existsb (String.eqb n) ns).

(** The message of the [TypeError] of [Buffer.from(null)]. *)
Definition buffer_from_null : string :=
  "The first argument must be of type string or an instance of Buffer, ArrayBuffer, or Array or an Array-like Object. Received null".

Definition has_query (body : search_body) : bool :=
  truthy (option_map Str (query body)).

(** A stand-in for a model that rejects some inputs. *)
Definition picky_model : model :=
  fun text =>
    if String.prefix "write" text then Throw "Input too long"
    else Fixture.toy_model text.

Definition picky_pipeline : nat -> result model := fun _ => Ok picky_model.

(** A load that always fails, with a message telling the attempt. *)
Definition offline_pipeline : nat -> result model :=
  fun k => Throw ("fetch failed, attempt " ++ Json.decimal (Z.of_nat k))%string.

(** The second element of [SAMPLE_TOOLS], and those after it. *)
Definition write_file : Populate.tool :=
  {| Populate.name := "write_file";
     Populate.description := "Write content to a file on the local filesystem";
     Populate.server := "filesystem";
     Populate.category := "write";
     Populate.inputSchema :=
       Obj [("type", Str "object");
            ("properties",
             Obj [("path", Populate.prop_string "Absolute path to the file");
                  ("content", Populate.prop_string "Content to write")]);
            ("required", Populate.strings ["path"; "content"])] |}.

Definition later_tools : list Populate.tool := tl (tl Populate.SAMPLE_TOOLS).

(** Loads that all succeed, each with a model of its own: the model of
    the [k]-th load answers the vector [(k)]. *)
Definition numbered_model (k : nat) : model :=
  fun _ => Ok [Fin (inject_Z (Z.of_nat k))].

Definition numbered_pipeline : nat -> result model :=
  fun k => Ok (numbered_model k).

Definition attempt_failed (k : nat) : string :=
  "fetch failed, attempt " ++ Json.decimal (Z.of_nat k).

(** A row stored without embedding, and the two tools of [tie_db] with it. *)
Definition legacy_row : row :=
  {| id := 3; name := "legacy"; description := "stored before embeddings";
     server := "filesystem"; category := None; input_schema := "{}";
     embedding := None |}.

Definition legacy_db : database :=
  insert_or_replace "legacy" "stored before embeddings" "filesystem" None "{}"
    None Fixture.tie_db.

(** The five best of [SAMPLE_TOOLS] for a query embedded as [(1, 0)]. *)
Definition top5 : list value :=
  match searchTools Fixture.unit_cos_sim [Fin 1; Fin 0] (Some 5%Z)
                    Fixture.sample_db with
  | Ok results => results
  | Throw _ => []
  end.

End Scenario.

(* ===================================================================== *)
(** ** Lemmas on the list operations                                      *)
(* ===================================================================== *)

Local Open Scope list_scope.

Section StableSortFacts.
Context {A : Type} (after : A -> A -> bool).

Lemma insert_perm (a : A) (l : list A) :
  Permutation (insert after a l) (a :: l).
Proof.
  induction l as [|b rest IH]; simpl.
  - apply Permutation_refl.
  - destruct (after a b).
    + eapply perm_trans; [apply perm_skip, IH | apply perm_swap].
    + apply Permutation_refl.
Qed.

Lemma stable_sort_perm (l : list A) : Permutation (stable_sort after l) l.
Proof.
  induction l as [|a rest IH]; simpl.
  - constructor.
  - eapply perm_trans; [apply insert_perm | apply perm_skip, IH].
Qed.

Lemma stable_sort_length (l : list A) :
  List.length (stable_sort after l) = List.length l.
Proof. apply Permutation_length, stable_sort_perm. Qed.

Lemma stable_sort_in (l : list A) (x : A) :
  In x (stable_sort after l) <-> In x l.
Proof.
  split; apply Permutation_in;
    [apply stable_sort_perm | apply Permutation_sym, stable_sort_perm].
Qed.

(** Stability: the elements of a class [p] no two of which are ordered by
    [after] come out in the order they went in. *)
Lemma insert_filter_out (p : A -> bool) (a : A) (l : list A) :
  p a = false -> filter p (insert after a l) = filter p l.
Proof.
  intros Ha. induction l as [|b rest IH]; simpl.
  - now rewrite Ha.
  - destruct (after a b); simpl.
    + now rewrite IH.
    + now rewrite Ha.
Qed.

Lemma insert_filter_in (p : A -> bool) (a : A) (l : list A) :
  (forall x y, p x = true -> p y = true -> after x y = false) ->
  p a = true -> filter p (insert after a l) = a :: filter p l.
Proof.
  intros Hp Ha. induction l as [|b rest IH]; simpl.
  - now rewrite Ha.
  - destruct (after a b) eqn:Hab; simpl.
    + destruct (p b) eqn:Hb.
      * rewrite (Hp a b Ha Hb) in Hab. discriminate.
      * exact IH.
    + now rewrite Ha.
Qed.

Lemma stable_sort_filter (p : A -> bool) (l : list A) :
  (forall x y, p x = true -> p y = true -> after x y = false) ->
  filter p (stable_sort after l) = filter p l.
Proof.
  intros Hp. induction l as [|a rest IH]; simpl; [reflexivity|].
  destruct (p a) eqn:Ha.
  - rewrite insert_filter_in by assumption. now rewrite IH.
  - rewrite insert_filter_out by assumption. exact IH.
Qed.

(** Sortedness: in the output no element must be placed behind its
    successor, as soon as [after] is asymmetric. *)
Hypothesis after_asym : forall x y, after x y = true -> after y x = false.

Lemma insert_hdrel (a b : A) (l : list A) :
  after b a = false ->
  HdRel (fun x y => after x y = false) b l ->
  HdRel (fun x y => after x y = false) b (insert after a l).
Proof.
  intros Hba Hl. destruct l as [|c rest]; simpl.
  - now constructor.
  - destruct (after a c); constructor; auto.
    now inversion Hl.
Qed.

Lemma insert_sorted (a : A) (l : list A) :
  Sorted (fun x y => after x y = false) l ->
  Sorted (fun x y => after x y = false) (insert after a l).
Proof.
  induction 1 as [|b rest Hs IH Hhd]; simpl.
  - repeat constructor.
  - destruct (after a b) eqn:Hab.
    + constructor; [exact IH|]. apply insert_hdrel; auto.
    + constructor; [now constructor | now constructor].
Qed.

Lemma stable_sort_sorted (l : list A) :
  Sorted (fun x y => after x y = false) (stable_sort after l).
Proof.
  induction l as [|a rest IH]; simpl; [constructor | now apply insert_sorted].
Qed.
End StableSortFacts.

Section ListFacts.
Context {A : Type}.

Lemma Sorted_weaken (R S : A -> A -> Prop) (l : list A) :
  (forall x y, In x l -> In y l -> R x y -> S x y) ->
  Sorted R l -> Sorted S l.
Proof.
  intros H Hs. induction Hs as [|a rest Hs IH Hhd]; constructor.
  - apply IH. intros x y Hx Hy. apply H; now right.
  - destruct Hhd as [|b rest' Hab]; constructor.
    apply H; [now left | right; now left | exact Hab].
Qed.

Lemma Sorted_firstn (R : A -> A -> Prop) (n : nat) (l : list A) :
  Sorted R l -> Sorted R (firstn n l).
Proof.
  intros Hs. revert n. induction Hs as [|a rest Hs IH Hhd]; intros [|n]; simpl;
    try constructor.
  - apply IH.
  - destruct Hhd as [|b rest' Hab]; destruct n; simpl; constructor; auto.
Qed.

Lemma filter_firstn_prefix (p : A -> bool) (n : nat) (l : list A) :
  Spec.prefix (filter p (firstn n l)) (filter p l).
Proof.
  exists (filter p (skipn n l)).
  rewrite <- filter_app. now rewrite firstn_skipn.
Qed.

Lemma slice0_firstn (l : list A) (e : Z) :
  exists n, JS.slice0 l e = firstn n l.
Proof. unfold JS.slice0. eauto. Qed.


Lemma slice0_length_le (l : list A) (e : Z) :
  (0 <= e)%Z -> (Z.of_nat (List.length (JS.slice0 l e)) <= e)%Z.
Proof.
  intros He. unfold JS.slice0.
  destruct (Z.ltb_spec e 0); [lia|].
  rewrite length_firstn. lia.
Qed.

(** With at least as many places as elements, [slice(0, n)] keeps all. *)
Lemma slice0_all (l : list A) (e : Z) :
  (Z.of_nat (List.length l) <= e)%Z -> JS.slice0 l e = l.
Proof.
  intros He. unfold JS.slice0.
  destruct (Z.ltb_spec e 0); [lia|].
  apply firstn_all2. lia.
Qed.

Lemma slice0_zero (l : list A) : JS.slice0 l 0 = [].
Proof.
  unfold JS.slice0. simpl. now rewrite Z.min_l by lia.
Qed.

Lemma slice0_negative (l : list A) (e : Z) :
  (e < 0)%Z ->
  JS.slice0 l e = firstn (List.length l - Z.to_nat (- e)) l.
Proof.
  intros He. unfold JS.slice0.
  destruct (Z.ltb_spec e 0); [|lia].
  f_equal. lia.
Qed.
End ListFacts.

(* ===================================================================== *)
(** ** Facts about [searchTools]                                          *)
(* ===================================================================== *)

Section NumberFacts.
Import JS.

Lemma positive_sub_ge (x y : Q) :
  positive (sub (Fin y) (Fin x)) = false -> (y <= x)%Q.
Proof.
  simpl. intros H. apply negb_false_iff, Qle_bool_iff in H. lra.
Qed.

Lemma positive_sub_asym (a b : number) :
  positive (sub b a) = true -> positive (sub a b) = false.
Proof.
  destruct a as [|x], b as [|y]; simpl; try discriminate.
  intros H. apply negb_true_iff in H. apply negb_false_iff, Qle_bool_iff.
  destruct (Qlt_le_dec 0 (y - x)) as [Hlt|Hle]; [lra|].
  apply Qle_bool_iff in Hle. congruence.
Qed.

Lemma positive_sub_tie (x y s : Q) :
  Qeq_bool x s = true -> Qeq_bool y s = true ->
  positive (sub (Fin y) (Fin x)) = false.
Proof.
  intros Hx Hy. apply Qeq_bool_iff in Hx, Hy.
  simpl. apply negb_false_iff, Qle_bool_iff. lra.
Qed.

Lemma positive_sub_self (n : number) : positive (sub n n) = false.
Proof.
  destruct n as [|x]; simpl; [reflexivity|].
  apply negb_false_iff, Qle_bool_iff. lra.
Qed.
End NumberFacts.

Section MapThrowing.
Import JS.
Context {A B : Type} (f : A -> result B).

Lemma map_throwing_Forall2 (l : list A) (bs : list B) :
  map_throwing f l = Ok bs -> Forall2 (fun a b => f a = Ok b) l bs.
Proof.
  revert bs. induction l as [|a rest IH]; simpl; intros bs H.
  - injection H as <-. constructor.
  - destruct (f a) as [b|] eqn:Hfa; simpl in H; [|discriminate].
    destruct (map_throwing f rest) as [bs'|]; simpl in H; [|discriminate].
    injection H as <-. constructor; auto.
Qed.

Lemma map_throwing_total (l : list A) :
  Forall (fun a => exists b, f a = Ok b) l ->
  exists bs, map_throwing f l = Ok bs.
Proof.
  induction 1 as [|a rest [b Hb] _ [bs IH]]; simpl.
  - now exists [].
  - rewrite Hb, IH. simpl. now exists (b :: bs).
Qed.

Lemma Forall2_in_r (R : A -> B -> Prop) (l : list A) (bs : list B) (b : B) :
  Forall2 R l bs -> In b bs -> exists a, In a l /\ R a b.
Proof.
  induction 1 as [|a b' l' bs' Hab _ IH]; simpl; [tauto|].
  intros [<-|Hin].
  - exists a. auto.
  - destruct (IH Hin) as (a' & Ha' & HR). exists a'. auto.
Qed.
End MapThrowing.

Section SearchFacts.
Import JS Sqlite Gateway Spec.
Variable cos_sim : Float32Array -> Float32Array -> number.

Lemma score_inv (q : Float32Array) (r : row) (v : value) :
  score cos_sim q r = Ok v ->
  exists e, embedding r = Some e /\
    v = Obj [("name", Str (name r)); ("description", Str (description r));
             ("server", Str (server r));
             ("category", text_or_null (category r));
             ("similarity", Num (cos_sim q e))].
Proof.
  unfold score. destruct (embedding r) as [e|]; simpl; [|discriminate].
  intros H. injection H as <-. now exists e.
Qed.

Lemma score_total (q : Float32Array) (r : row) :
  embedding r <> None -> exists v, score cos_sim q r = Ok v.
Proof.
  unfold score. destruct (embedding r) as [e|]; [|congruence].
  simpl. eauto.
Qed.

Lemma searchTools_unfold (q : Float32Array) (limit : option Z) (d : database)
    (scored : list value) :
  map_throwing (score cos_sim q) (tools d) = Ok scored ->
  searchTools cos_sim q limit d =
    Ok (slice0 (sort by_similarity scored)
               (match limit with Some n => n | None => 5%Z end)).
Proof. unfold searchTools. now intros ->. Qed.

Lemma scored_total (q : Float32Array) (d : database) :
  all_embedded d ->
  exists scored, map_throwing (score cos_sim q) (tools d) = Ok scored.
Proof.
  intros H. apply map_throwing_total.
  eapply Forall_impl; [|exact H]. intros r. apply score_total.
Qed.

Lemma behind_asym (a b : value) : behind a b = true -> behind b a = false.
Proof. unfold behind, by_similarity. apply positive_sub_asym. Qed.

Lemma behind_tie (s : Q) (a b : value) :
  has_similarity s a = true -> has_similarity s b = true -> behind a b = false.
Proof.
  unfold has_similarity, behind, by_similarity, similarity.
  destruct (to_number (get "similarity" a)) as [|x]; [discriminate|].
  destruct (to_number (get "similarity" b)) as [|y]; [discriminate|].
  intros Ha Hb. eapply positive_sub_tie; eauto.
Qed.

Lemma ranked_sorted (scored : list value) :
  (forall v, In v scored -> similarity v <> NaN) ->
  non_increasing (sort by_similarity scored).
Proof.
  intros Hfin. unfold non_increasing, sort.
  eapply Sorted_weaken; [|apply (stable_sort_sorted behind behind_asym)].
  intros x y Hx Hy Hxy.
  apply stable_sort_in in Hx, Hy. apply Hfin in Hx, Hy.
  unfold behind, by_similarity in Hxy. fold (similarity x) (similarity y) in Hxy.
  destruct (similarity x) as [|sx]; [congruence|].
  destruct (similarity y) as [|sy]; [congruence|].
  simpl. now apply positive_sub_ge.
Qed.
End SearchFacts.

(* ===================================================================== *)
(** ** Search: ranking, limit, embedding dimensions                       *)
(* ===================================================================== *)

Section SearchClaims.
Import JS Sqlite Gateway Spec.

(** C2, as the code has it: on a catalog whose embeddings are all stored
    and whose similarities to the query are all numbers, a search with a
    limit [N > 0] returns at most [N] entries in non-increasing
    similarity; entries of equal similarity stay in the order of their
    rows in the table (for each similarity, the returned entries are the
    first of the table's entries of that similarity), their names playing
    no part. [scored] is the list of entries, one per row in row order. *)
Theorem C2_search_ranking :
  forall (cos_sim : Float32Array -> Float32Array -> number)
         (q : Float32Array) (N : Z) (d : database),
    (0 < N)%Z ->
    all_embedded d ->
    (forall r e, In r (tools d) -> embedding r = Some e -> cos_sim q e <> NaN) ->
    exists scored results,
      Forall2 (fun r v => score cos_sim q r = Ok v) (tools d) scored /\
      searchTools cos_sim q (Some N) d = Ok results /\
      (Z.of_nat (List.length results) <= N)%Z /\
      non_increasing results /\
      (forall s, prefix (filter (has_similarity s) results)
                        (filter (has_similarity s) scored)).
Proof.
  intros cos_sim q N d HN Hemb Hfin.
  destruct (scored_total cos_sim q d Hemb) as [scored Hscored].
  pose proof (map_throwing_Forall2 _ _ _ Hscored) as Hrows.
  exists scored, (slice0 (sort by_similarity scored) N).
  split; [exact Hrows|].
  split; [now apply searchTools_unfold|].
  split; [apply slice0_length_le; lia|].
  destruct (slice0_firstn (sort by_similarity scored) N) as [n ->].
  split.
  - apply Sorted_firstn, ranked_sorted.
    intros v Hv.
    destruct (Forall2_in_r _ _ _ _ Hrows Hv) as (r & Hr & Hscore).
    destruct (score_inv _ _ _ _ Hscore) as (e & He & ->).
    unfold similarity. simpl. eapply Hfin; eauto.
  - intros s.
    rewrite <- (stable_sort_filter behind (has_similarity s) scored)
      by (intros x y; apply behind_tie).
    apply filter_firstn_prefix.
Qed.

Lemma getEmbedder_db (pipeline : nat -> result model) (w : world) :
  db (snd (getEmbedder pipeline w)) = db w.
Proof.
  unfold getEmbedder, getEmbedder_enter, getEmbedder_resume.
  destruct (embedder w); simpl; [reflexivity|].
  destruct (pipeline _); reflexivity.
Qed.

Lemma generateEmbedding_db (pipeline : nat -> result model) (text : string)
    (w : world) :
  db (snd (generateEmbedding pipeline text w)) = db w.
Proof.
  unfold generateEmbedding.
  pose proof (getEmbedder_db pipeline w) as H.
  destruct (getEmbedder pipeline w) as [[m|e] w1]; exact H.
Qed.

Lemma generateEmbedding_ready (pipeline : nat -> result model)
    (text : string) (w : world) (m : model) :
  embedder w = Some m -> generateEmbedding pipeline text w = (m text, w).
Proof.
  intros H. unfold generateEmbedding, getEmbedder, getEmbedder_enter.
  now rewrite H.
Qed.

(** [POST /search] past its guard and its embedding step. *)
Lemma post_search_unfold (pipeline : nat -> result model)
    (cos_sim : Float32Array -> Float32Array -> number)
    (text : string) (lim : option Z) (w w1 : world) (qe : Float32Array) :
  text <> "" ->
  generateEmbedding pipeline text w = (Ok qe, w1) ->
  post_search pipeline cos_sim {| query := Some text; limit := lim |} w =
    (match searchTools cos_sim qe
             (Some (match lim with Some n => n | None => 5%Z end)) (db w) with
     | Ok results => Ok (Obj [("tools", Arr results)])
     | Throw message => Ok (error message)
     end, w1).
Proof.
  intros Htext Hgen. unfold post_search. simpl.
  apply String.eqb_neq in Htext. rewrite Htext. simpl.
  pose proof (generateEmbedding_db pipeline text w) as Hdb.
  rewrite Hgen in *. simpl in Hdb. rewrite Hdb.
  destruct (searchTools cos_sim qe _ (db w)); reflexivity.
Qed.

(** C4, as the code has it: the length of a stored embedding is never
    looked at, and searching writes nothing to the console. On a catalog
    whose embeddings are all stored, once the query is embedded (leaving
    the process in [w1]), the search succeeds for every limit, the default
    included, and leaves [w1] as it is; every row is scored against the
    query, whatever the length of its embedding; what is returned and what
    the limit leaves out ([dropped]) make up the scored rows; and with room
    for all of them ([limit >= number of rows]) every row is returned. *)
Theorem C4_every_row_scored :
  forall (pipeline : nat -> result model)
         (cos_sim : Float32Array -> Float32Array -> number)
         (text : string) (lim : option Z) (w w1 : world) (q : Float32Array),
    text <> "" ->
    generateEmbedding pipeline text w = (Ok q, w1) ->
    all_embedded (db w) ->
    exists scored results dropped,
      Forall2 (fun r v =>
                 exists e, embedding r = Some e /\
                   get "name" v = Some (Str (name r)) /\
                   similarity v = cos_sim q e)
              (tools (db w)) scored /\
      post_search pipeline cos_sim {| query := Some text; limit := lim |} w
        = (Ok (Obj [("tools", Arr results)]), w1) /\
      Permutation (results ++ dropped) scored /\
      ((Z.of_nat (List.length (tools (db w)))
        <= match lim with Some n => n | None => 5 end)%Z ->
       Permutation results scored).
Proof.
  intros pipeline cos_sim text lim w w1 q Htext Hgen Hemb.
  destruct (scored_total cos_sim q (db w) Hemb) as [scored Hscored].
  pose proof (map_throwing_Forall2 _ _ _ Hscored) as Hrows.
  destruct (slice0_firstn (sort by_similarity scored)
              (match lim with Some n => n | None => 5%Z end)) as [n Hn].
  exists scored,
         (slice0 (sort by_similarity scored)
                 (match lim with Some n => n | None => 5%Z end)),
         (skipn n (sort by_similarity scored)).
  split; [|split; [|split]].
  - eapply Forall2_impl; [|exact Hrows].
    intros r v Hscore. destruct (score_inv _ _ _ _ Hscore) as (e & He & ->).
    exists e. auto.
  - rewrite (post_search_unfold _ _ _ _ _ _ _ Htext Hgen).
    now rewrite (searchTools_unfold _ _ _ _ _ Hscored).
  - rewrite Hn, firstn_skipn. apply stable_sort_perm.
  - intros Hroom. rewrite slice0_all.
    + apply stable_sort_perm.
    + unfold sort. rewrite stable_sort_length.
      rewrite <- (Forall2_length Hrows). exact Hroom.
Qed.

(** C3, as the code has it: an omitted [limit] is 5; a [limit <= 0] is not
    refused. Once the query is embedded, on a catalog whose embeddings are
    all stored, [limit = 0] answers an empty list and [limit = -k] answers
    the full ranking without its last [k] entries. *)
Theorem C3_limit_default_and_nonpositive :
  forall (pipeline : nat -> result model)
         (cos_sim : Float32Array -> Float32Array -> number)
         (text : string) (n : Z) (w w1 : world) (q : Float32Array),
    text <> "" ->
    generateEmbedding pipeline text w = (Ok q, w1) ->
    all_embedded (db w) ->
    (n <= 0)%Z ->
    post_search pipeline cos_sim {| query := Some text; limit := None |} w
      = post_search pipeline cos_sim {| query := Some text; limit := Some 5%Z |} w /\
    exists ranked,
      searchTools cos_sim q (Some (Z.of_nat (List.length (tools (db w))))) (db w)
        = Ok ranked /\
      post_search pipeline cos_sim {| query := Some text; limit := Some n |} w
        = (Ok (Obj [("tools",
                     Arr (if (n =? 0)%Z then []
                          else firstn (List.length ranked - Z.to_nat (- n)) ranked))]),
           w1).
Proof.
  intros pipeline cos_sim text n w w1 q Htext Hgen Hemb Hn.
  split; [reflexivity|].
  destruct (scored_total cos_sim q (db w) Hemb) as [scored Hscored].
  pose proof (map_throwing_Forall2 _ _ _ Hscored) as Hrows.
  exists (sort by_similarity scored). split.
  - rewrite (searchTools_unfold _ _ _ _ _ Hscored).
    rewrite slice0_all; [reflexivity|].
    unfold sort. rewrite stable_sort_length, <- (Forall2_length Hrows). lia.
  - rewrite (post_search_unfold _ _ _ _ _ _ _ Htext Hgen).
    rewrite (searchTools_unfold _ _ _ _ _ Hscored).
    destruct (Z.eqb_spec n 0) as [->|Hne].
    + now rewrite slice0_zero.
    + rewrite slice0_negative by lia. reflexivity.
Qed.
End SearchClaims.

Section SearchInstances.
Import JS Sqlite Gateway Spec Fixture.

Lemma embedded_all (d : database) :
  forallb embedded (tools d) = true -> all_embedded d.
Proof.
  intros H. apply Forall_forall. intros r Hr.
  apply (proj1 (forallb_forall _ _) H) in Hr.
  unfold embedded in Hr. destruct (embedding r); [discriminate|discriminate].
Qed.

Lemma numbers_all (cos_sim : Float32Array -> Float32Array -> number)
    (q : Float32Array) (d : database) :
  forallb (fun r => match embedding r with
                    | Some e => is_number (cos_sim q e)
                    | None => true
                    end) (tools d) = true ->
  forall r e, In r (tools d) -> embedding r = Some e -> cos_sim q e <> NaN.
Proof.
  intros H r e Hr He.
  apply (proj1 (forallb_forall _ _) H) in Hr. rewrite He in Hr.
  destruct (cos_sim q e); [discriminate|discriminate].
Qed.

Lemma sample_db_embedded : all_embedded sample_db.
Proof. apply embedded_all. vm_compute. reflexivity. Qed.

Lemma sample_db_similarities (r : row) (e : Float32Array) :
  In r (tools sample_db) -> embedding r = Some e ->
  unit_cos_sim [Fin 1; Fin 0] e <> NaN.
Proof. apply numbers_all. vm_compute. reflexivity. Qed.

(** The ranking of [SAMPLE_TOOLS] for a query embedded as [(1, 0)], limit 3. *)
Lemma C2_search_ranking_witness :
  exists scored results,
    Forall2 (fun r v => score unit_cos_sim [Fin 1; Fin 0] r = Ok v)
            (tools sample_db) scored /\
    searchTools unit_cos_sim [Fin 1; Fin 0] (Some 3%Z) sample_db = Ok results /\
    (Z.of_nat (List.length results) <= 3)%Z /\
    non_increasing results /\
    (forall s, prefix (filter (has_similarity s) results)
                      (filter (has_similarity s) scored)).
Proof.
  apply (C2_search_ranking unit_cos_sim [Fin 1; Fin 0] 3%Z sample_db).
  - reflexivity.
  - exact sample_db_embedded.
  - exact sample_db_similarities.
Defined.

(** The two rows of [tie_db] are stored with one embedding, so every
    [cos_sim] scores them alike, and [sort] leaves them in row order. *)
Lemma tie_db_ranking (cos_sim : Float32Array -> Float32Array -> number)
    (N : Z) :
  searchTools cos_sim [Fin 1; Fin 0] (Some N) tie_db =
    Ok (slice0
          [Obj [("name", Str "zeta"); ("description", Str "first tool");
                ("server", Str "filesystem"); ("category", Str "read");
                ("similarity", Num (cos_sim [Fin 1; Fin 0] [Fin 1; Fin 0]))];
           Obj [("name", Str "alpha"); ("description", Str "second tool");
                ("server", Str "github"); ("category", Str "read");
                ("similarity", Num (cos_sim [Fin 1; Fin 0] [Fin 1; Fin 0]))]]
          N).
Proof.
  unfold searchTools.
  replace (tools tie_db) with
    [mkRow 1 "zeta" "first tool" "filesystem" (Some "read") "{}"
           (Some [Fin 1; Fin 0]);
     mkRow 2 "alpha" "second tool" "github" (Some "read") "{}"
           (Some [Fin 1; Fin 0])] by reflexivity.
  cbn [map_throwing score bind embedding name description server category
       text_or_null].
  unfold sort, stable_sort. cbn [fold_right insert].
  replace (by_similarity _ _) with
    (sub (cos_sim [Fin 1; Fin 0] [Fin 1; Fin 0])
         (cos_sim [Fin 1; Fin 0] [Fin 1; Fin 0])) by reflexivity.
  now rewrite positive_sub_self.
Qed.

(** C2 as stated fails: [alpha] sorts before [zeta] by name, yet whatever
    [cos_sim] computes, the two tools of [tie_db] tie in similarity and
    the search returns [zeta], the older row, first. *)
Lemma C2_counterexample :
  String.ltb "alpha" "zeta" = true /\
  forall cos_sim : Float32Array -> Float32Array -> number,
    searchTools cos_sim [Fin 1; Fin 0] (Some 5%Z) tie_db =
      Ok [Obj [("name", Str "zeta"); ("description", Str "first tool");
               ("server", Str "filesystem"); ("category", Str "read");
               ("similarity", Num (cos_sim [Fin 1; Fin 0] [Fin 1; Fin 0]))];
          Obj [("name", Str "alpha"); ("description", Str "second tool");
               ("server", Str "github"); ("category", Str "read");
               ("similarity", Num (cos_sim [Fin 1; Fin 0] [Fin 1; Fin 0]))]].
Proof.
  split; [reflexivity|]. intros cos_sim. now rewrite tie_db_ranking.
Qed.
Lemma mixed_db_embedded : all_embedded mixed_db.
Proof. apply embedded_all. vm_compute. reflexivity. Qed.

(** The first search of a fresh process, with the default limit, over
    [SAMPLE_TOOLS] and a thirteenth record whose embedding has three
    components where the query has two: the search succeeds, the record
    is scored and, here, returned; the console holds the two lines of the
    model load and nothing else. *)
Lemma C4_every_row_scored_witness :
  (exists scored results dropped,
      Forall2 (fun r v =>
                 exists e, embedding r = Some e /\
                   get "name" v = Some (Str (name r)) /\
                   similarity v = unit_cos_sim [Fin 1; Fin 0] e)
              (tools (db (boot mixed_db))) scored /\
      post_search toy_pipeline unit_cos_sim
        {| query := Some "read a file"; limit := None |} (boot mixed_db)
        = (Ok (Obj [("tools", Arr results)]),
           {| db := mixed_db; embedder := Some toy_model;
              console := ["Loading embedding model (one-time, ~22MB)...";
                          "Embedder ready!"];
              pipeline_calls := 1 |}) /\
      Permutation (results ++ dropped) scored /\
      ((Z.of_nat (List.length (tools (db (boot mixed_db)))) <= 5)%Z ->
       Permutation results scored)) /\
  In (Some [Fin 1; Fin 0; Fin 0]) (map embedding (tools mixed_db)) /\
  In (Obj [("name", Str "ocr_image");
           ("description", Str "Extract the text of an image");
           ("server", Str "vision"); ("category", Str "read");
           ("similarity", Num (Fin 1))])
     (listed (fst (post_search toy_pipeline unit_cos_sim
                     {| query := Some "read a file"; limit := None |}
                     (boot mixed_db)))).
Proof.
  split; [|split].
  - apply (C4_every_row_scored toy_pipeline unit_cos_sim "read a file" None
             (boot mixed_db)).
    + discriminate.
    + reflexivity.
    + exact mixed_db_embedded.
  - vm_compute. tauto.
  - vm_compute. tauto.
Defined.

(** C4 as stated fails: the query has two components, the one stored
    embedding has three, and whatever [cos_sim] computes the record is
    returned, scored against the query. *)
Lemma C4_counterexample :
  map embedding (tools migrated_db) = [Some [Fin 1; Fin 0; Fin 0]] /\
  forall cos_sim : Float32Array -> Float32Array -> number,
    searchTools cos_sim [Fin 1; Fin 0] (Some 5%Z) migrated_db =
      Ok [Obj [("name", Str "read_file");
               ("description",
                Str "Read contents from a file on the local filesystem");
               ("server", Str "filesystem"); ("category", Str "read");
               ("similarity",
                Num (cos_sim [Fin 1; Fin 0] [Fin 1; Fin 0; Fin 0]))]].
Proof. split; [reflexivity | intros cos_sim; reflexivity]. Qed.

(** A search over [SAMPLE_TOOLS] with [limit = -10]: the ranking of twelve
    loses its last ten entries. *)
Lemma C3_limit_default_and_nonpositive_witness :
  post_search toy_pipeline unit_cos_sim
    {| query := Some "read a file"; limit := None |} (ready sample_db)
    = post_search toy_pipeline unit_cos_sim
        {| query := Some "read a file"; limit := Some 5%Z |} (ready sample_db) /\
  exists ranked,
    searchTools unit_cos_sim [Fin 1; Fin 0]
      (Some (Z.of_nat (List.length (tools (db (ready sample_db))))))
      (db (ready sample_db)) = Ok ranked /\
    post_search toy_pipeline unit_cos_sim
      {| query := Some "read a file"; limit := Some (-10)%Z |} (ready sample_db)
      = (Ok (Obj [("tools",
                   Arr (if (-10 =? 0)%Z then []
                        else firstn (List.length ranked - Z.to_nat (- -10)) ranked))]),
         ready sample_db).
Proof.
  apply (C3_limit_default_and_nonpositive toy_pipeline unit_cos_sim
           "read a file" (-10)%Z (ready sample_db) (ready sample_db)
           [Fin 1; Fin 0]).
  - discriminate.
  - reflexivity.
  - exact sample_db_embedded.
  - vm_compute. discriminate.
Defined.

(** C3 as stated fails: with the embedder loaded, [limit = 0] is answered
    by an empty list and [limit = -1] by the ranking without its last
    entry, neither by an error. *)
Lemma C3_counterexample :
  (forall (pipeline : nat -> result model)
          (cos_sim : Float32Array -> Float32Array -> number),
      post_search pipeline cos_sim
        {| query := Some "read a file"; limit := Some 0%Z |} (ready tie_db)
      = (Ok (Obj [("tools", Arr [])]), ready tie_db)) /\
  (forall (pipeline : nat -> result model)
          (cos_sim : Float32Array -> Float32Array -> number),
      post_search pipeline cos_sim
        {| query := Some "read a file"; limit := Some (-1)%Z |} (ready tie_db)
      = (Ok (Obj [("tools",
                   Arr [Obj [("name", Str "zeta");
                             ("description", Str "first tool");
                             ("server", Str "filesystem");
                             ("category", Str "read");
                             ("similarity",
                              Num (cos_sim [Fin 1; Fin 0] [Fin 1; Fin 0]))]])]),
         ready tie_db)).
Proof.
  split; intros pipeline cos_sim;
    rewrite (post_search_unfold pipeline cos_sim "read a file" _
               (ready tie_db) (ready tie_db) [Fin 1; Fin 0])
      by (discriminate || reflexivity);
    change (db (ready tie_db)) with tie_db;
    rewrite tie_db_ranking; reflexivity.
Qed.
End SearchInstances.

(* ===================================================================== *)
(** ** Execution                                                          *)
(* ===================================================================== *)

Section ExecuteClaims.
Import JS Sqlite Gateway Spec Fixture.

(** C1, as the code has it: [POST /execute] never consults the catalog and
    has no backend to contact. It leaves the process state as it is; when
    [tool] and [args] are both truthy it answers the mock success body
    that echoes them, for any tool name and any catalog, and otherwise it
    answers the error [Tool and args required]. *)
Theorem C1_execute_is_a_mock :
  forall (body : execute_body) (w : world),
    exists response,
      (forall w', post_execute body w' = (Ok response, w')) /\
      post_execute body w = (Ok response, w) /\
      ((truthy (tool body) && truthy (args body) = true /\
        get "success" response = Some (Bool true) /\
        get "tool" response = tool body /\
        get "args" response = args body)
       \/
       (truthy (tool body) && truthy (args body) = false /\
        response = error "Tool and args required")).
Proof.
  intros [t a] w. unfold post_execute. cbn [tool args].
  destruct t as [t|].
  2:{ eexists. split; [reflexivity|]. split; [reflexivity|]. right. auto. }
  destruct a as [a|].
  2:{ eexists. split; [reflexivity|]. split; [reflexivity|].
      right. split; [apply andb_false_r | reflexivity]. }
  destruct (truthy (Some t)) eqn:Ht; destruct (truthy (Some a)) eqn:Ha;
    cbn [negb orb andb]; eexists;
    (split; [reflexivity|]); (split; [reflexivity|]);
    solve [left; auto | right; auto].
Qed.

(** C1 as stated fails: on the empty catalog, where [nonexistent_tool] is
    not stored, the call is answered by the success body. *)
Lemma C1_counterexample :
  where_name "nonexistent_tool" (tools Sqlite.empty) = None /\
  post_execute {| tool := Some (Str "nonexistent_tool"); args := Some (Obj []) |}
               (boot Sqlite.empty)
  = (Ok (Obj [("success", Bool true);
              ("tool", Str "nonexistent_tool");
              ("args", Obj []);
              ("message", Str "POC: Tool execution would happen here. In production, this would forward to the actual MCP server.");
              ("note", Str "To implement: Forward request to MCP server based on tool.server field")]),
     boot Sqlite.empty).
Proof. split; reflexivity. Qed.
End ExecuteClaims.

(* ===================================================================== *)
(** ** The lazily loaded embedder                                         *)
(* ===================================================================== *)

Section EmbedderClaims.
Import JS Sqlite Gateway Spec.
Variable pipeline : nat -> result model.

(** One caller after another: once [embedder] is set the guard holds and
    [pipeline] is not invoked again. *)
Lemma getEmbedder_loaded (w : world) (m : model) :
  embedder w = Some m -> getEmbedder pipeline w = (Ok m, w).
Proof.
  intros H. unfold getEmbedder, getEmbedder_enter. now rewrite H.
Qed.

Lemma step_nth_app (pre : list call) (c : call) (rest : list call) (w : world) :
  step_nth pipeline (List.length pre) (pre ++ c :: rest) w =
    (pre ++ fst (step_call pipeline c w) :: rest, snd (step_call pipeline c w)).
Proof.
  induction pre as [|p pre IH]; simpl.
  - now destruct (step_call pipeline c w).
  - now rewrite IH.
Qed.

Lemma run_app (s1 s2 : list nat) (calls : list call) (w : world) :
  run pipeline (s1 ++ s2) calls w =
    run pipeline s2 (fst (run pipeline s1 calls w))
                    (snd (run pipeline s1 calls w)).
Proof.
  revert calls w. induction s1 as [|i s1 IH]; intros calls w; simpl.
  - reflexivity.
  - destruct (step_nth pipeline i calls w) as [calls' w1]. apply IH.
Qed.

(** Every call reaches its [await] before any load has settled: each finds
    [embedder] unset and invokes [pipeline]. *)
Lemma all_enter (m : nat) :
  forall (pre : list call) (w : world),
    embedder w = None ->
    exists w1,
      run pipeline (seq (List.length pre) m) (pre ++ repeat Called m) w =
        (pre ++ map Awaiting (seq (S (pipeline_calls w)) m), w1) /\
      pipeline_calls w1 = (pipeline_calls w + m)%nat.
Proof.
  induction m as [|m IH]; intros pre w Hw; simpl.
  - exists w. split; [reflexivity | lia].
  - rewrite step_nth_app. simpl.
    unfold getEmbedder_enter. rewrite Hw. simpl.
    set (w1 := {| db := db w; embedder := embedder w;
                  console := (console w
                              ++ ["Loading embedding model (one-time, ~22MB)..."])%list;
                  pipeline_calls := S (pipeline_calls w) |}).
    destruct (IH (pre ++ [Awaiting (S (pipeline_calls w))])%list w1 Hw)
      as (w2 & Hrun & Hcalls).
    rewrite length_app, Nat.add_comm in Hrun. simpl in Hrun.
    rewrite <- !app_assoc in Hrun. simpl in Hrun.
    exists w2. split; [exact Hrun|]. rewrite Hcalls. simpl. lia.
Qed.

(** The loads settle: each call returns what its own load produced, and
    no further [pipeline] is invoked. *)
Lemma all_settle (ks : list nat) :
  forall (pre : list call) (w : world),
    exists w1,
      run pipeline (seq (List.length pre) (List.length ks))
          (pre ++ map Awaiting ks) w =
        (pre ++ map (fun k => Returned (pipeline k)) ks, w1) /\
      pipeline_calls w1 = pipeline_calls w.
Proof.
  induction ks as [|k ks IH]; intros pre w; simpl.
  - exists w. split; reflexivity.
  - rewrite step_nth_app. simpl.
    assert (Hstep : exists w1,
               getEmbedder_resume (pipeline k) w = (pipeline k, w1) /\
               pipeline_calls w1 = pipeline_calls w).
    { unfold getEmbedder_resume. destruct (pipeline k); eexists; split;
        reflexivity. }
    destruct Hstep as (w1 & Hres & Hcalls). rewrite Hres. simpl.
    destruct (IH (pre ++ [Returned (pipeline k)])%list w1)
      as (w2 & Hrun & Hcalls2).
    rewrite length_app, Nat.add_comm in Hrun. simpl in Hrun.
    rewrite <- !app_assoc in Hrun. simpl in Hrun.
    exists w2. split; [exact Hrun | congruence].
Qed.

(** C5 on the code: [n] calls of [getEmbedder] issued before the model has
    loaded invoke [pipeline] [n] times, and the [k]-th caller returns the
    outcome of the [k]-th load. *)
Theorem C5_overlapping_callers_each_load :
  forall (d : database) (n : nat),
    fst (run pipeline (simultaneous n) (repeat Called n) (boot d))
      = map (fun k => Returned (pipeline k)) (seq 1 n) /\
    pipeline_calls (snd (run pipeline (simultaneous n) (repeat Called n) (boot d)))
      = n.
Proof.
  intros d n. unfold simultaneous. rewrite run_app.
  destruct (all_enter n [] (boot d) eq_refl) as (w1 & Hrun1 & Hcalls1).
  simpl in Hrun1, Hcalls1. rewrite Hrun1. simpl.
  destruct (all_settle (seq 1 n) [] w1) as (w2 & Hrun2 & Hcalls2).
  rewrite length_seq in Hrun2. simpl in Hrun2. rewrite Hrun2. simpl.
  split; [reflexivity | congruence].
Qed.
End EmbedderClaims.

(* ===================================================================== *)
(** ** Metadata listing and the shape of the entries                      *)
(* ===================================================================== *)

Section ListingClaims.
Import JS Sqlite Gateway Spec Fixture.



Lemma listed_get_tools (params : list (string * string)) (w : world) :
  listed (fst (get_tools params w)) =
    map (select ["name"; "description"; "server"; "category"])
        (order_by_server_name (tools (db w))).
Proof. reflexivity. Qed.




Lemma after_server_name_asym (a b : row) :
  after_server_name a b = true -> after_server_name b a = false.
Proof.
  unfold after_server_name, String.ltb.
  rewrite (String.compare_antisym (server a) (server b)).
  rewrite (String.compare_antisym (name a) (name b)).
  destruct (String.compare (server b) (server a)); simpl;
    try discriminate; try reflexivity.
  destruct (String.compare (name b) (name a)); simpl;
    try discriminate; reflexivity.
Qed.

(** C9, as the code has it: [GET /tools] takes no filter. Whatever the
    request carries, the answer is the one given to a bare request: the
    metadata of every stored record, each once, in the order of
    [ORDER BY server, name], and the process state is left as it is. *)
Theorem C9_listing_takes_no_filter :
  forall (params : list (string * string)) (w : world),
    get_tools params w = get_tools [] w /\
    snd (get_tools params w) = w /\
    exists rows,
      Permutation rows (tools (db w)) /\
      Sorted (fun a b => after_server_name a b = false) rows /\
      listed (fst (get_tools params w))
        = map (select ["name"; "description"; "server"; "category"]) rows.
Proof.
  intros params w. split; [reflexivity|]. split; [reflexivity|].
  exists (order_by_server_name (tools (db w))). split; [|split].
  - apply stable_sort_perm.
  - apply stable_sort_sorted, after_server_name_asym.
  - apply listed_get_tools.
Qed.

(** C9 as stated fails: a request that names the backend [github] is
    answered with [read_file], a tool of the backend [filesystem]. *)
Lemma C9_counterexample :
  In (Obj [("name", Str "read_file");
           ("description",
            Str "Read contents from a file on the local filesystem");
           ("server", Str "filesystem");
           ("category", Str "read")])
     (listed (fst (get_tools [("backendId", "github")] (boot sample_db)))).
Proof. vm_compute. tauto. Qed.
End ListingClaims.

(* ===================================================================== *)
(** ** The catalog: upsert and schema fetch                               *)
(* ===================================================================== *)

Section TableFacts.
Import JS Sqlite Spec.

Lemma find_app {A} (p : A -> bool) (l1 l2 : list A) :
  find p (l1 ++ l2) =
    match find p l1 with Some x => Some x | None => find p l2 end.
Proof.
  induction l1 as [|a l1 IH]; simpl; [reflexivity|].
  now destruct (p a).
Qed.

Lemma find_filter {A} (p q : A -> bool) (l : list A) :
  (forall x, p x = true -> q x = true) ->
  find p (filter q l) = find p l.
Proof.
  intros Hpq. induction l as [|a l IH]; simpl; [reflexivity|].
  destruct (q a) eqn:Hq; simpl.
  - now rewrite IH.
  - destruct (p a) eqn:Hp; [|exact IH].
    apply Hpq in Hp. congruence.
Qed.

Lemma find_filter_none {A} (p : A -> bool) (l : list A) :
  find p (filter (fun x => negb (p x)) l) = None.
Proof.
  induction l as [|a l IH]; simpl; [reflexivity|].
  destruct (p a) eqn:Hp; simpl; [exact IH|]. now rewrite Hp.
Qed.

Lemma filter_filter_none {A} (p : A -> bool) (l : list A) :
  filter p (filter (fun x => negb (p x)) l) = [].
Proof.
  induction l as [|a l IH]; simpl; [reflexivity|].
  destruct (p a) eqn:Hp; simpl; [exact IH|]. now rewrite Hp.
Qed.

Variables (n desc srv : string) (cat : option string) (schema : string)
          (emb : option Float32Array) (d : database).

(** After the statement, exactly one row bears the name: the new one. *)
Lemma insert_or_replace_single :
  filter (fun r => name r =? n)
         (tools (insert_or_replace n desc srv cat schema emb d))
  = [stored_row n desc srv cat schema emb d].
Proof.
  unfold insert_or_replace, stored_row. simpl.
  rewrite filter_app, (filter_filter_none (fun r => name r =? n)). simpl.
  now rewrite String.eqb_refl.
Qed.

Lemma insert_or_replace_lookup :
  where_name n (tools (insert_or_replace n desc srv cat schema emb d))
  = Some (stored_row n desc srv cat schema emb d).
Proof.
  unfold where_name, insert_or_replace, stored_row. simpl.
  rewrite find_app, (find_filter_none (fun r => name r =? n)). simpl.
  now rewrite String.eqb_refl.
Qed.

(** Rows of other names are not touched. *)
Lemma insert_or_replace_other (m : string) :
  m <> n ->
  where_name m (tools (insert_or_replace n desc srv cat schema emb d))
  = where_name m (tools d).
Proof.
  intros Hm. unfold where_name, insert_or_replace. simpl.
  rewrite find_app, find_filter.
  - destruct (find _ (tools d)); [reflexivity|]. simpl.
    apply not_eq_sym, String.eqb_neq in Hm. now rewrite Hm.
  - intros r Hr. apply String.eqb_eq in Hr. subst m.
    now apply negb_true_iff, String.eqb_neq.
Qed.

Lemma insert_or_replace_names :
  names (insert_or_replace n desc srv cat schema emb d)
  = filter (fun m => negb (m =? n)) (names d) ++ [n].
Proof.
  unfold names, insert_or_replace. simpl.
  rewrite map_app. simpl. f_equal.
  induction (tools d) as [|r rows IH]; simpl; [reflexivity|].
  destruct (name r =? n); simpl; now rewrite IH.
Qed.

(** The UNIQUE constraint on [name] is kept. *)
Lemma insert_or_replace_unique :
  NoDup (names d) ->
  NoDup (names (insert_or_replace n desc srv cat schema emb d)).
Proof.
  intros Hd. rewrite insert_or_replace_names.
  apply NoDup_app.
  - now apply NoDup_filter.
  - repeat constructor. intros [].
  - intros m Hm [<-|[]]. apply filter_In in Hm. destruct Hm as [_ Hm].
    now rewrite String.eqb_refl in Hm.
Qed.
End TableFacts.

Section CatalogClaims.
Import JS Sqlite Gateway Spec Fixture.

Lemma upserts_unique (ops : list (Populate.tool * string * Float32Array))
    (d : database) :
  NoDup (names d) -> NoDup (names (upserts ops d)).
Proof.
  revert d. induction ops as [|op ops IH]; intros d Hd; simpl; [exact Hd|].
  apply IH. unfold Populate.upsert. now apply insert_or_replace_unique.
Qed.

(** C8: on a table that satisfies its UNIQUE constraint, after any run of
    upserts followed by the upsert of [t], no two rows share a name, and
    the rows named like [t] are exactly one: the row just written, with
    the fields bound to the statement. *)
Theorem C8_upsert_keeps_names_unique :
  forall (ops : list (Populate.tool * string * Float32Array))
         (t : Populate.tool) (schema : string) (e : Float32Array)
         (d : database),
    NoDup (names d) ->
    NoDup (names (Populate.upsert t schema e (upserts ops d))) /\
    exists rowid,
      filter (fun r => name r =? Populate.name t)
             (tools (Populate.upsert t schema e (upserts ops d)))
      = [ {| id := rowid;
             name := Populate.name t;
             description := Populate.description t;
             server := Populate.server t;
             category := Some (Populate.category t);
             input_schema := schema;
             embedding := Some e |} ].
Proof.
  intros ops t schema e d Hd. split.
  - unfold Populate.upsert. apply insert_or_replace_unique.
    now apply upserts_unique.
  - eexists. unfold Populate.upsert. rewrite insert_or_replace_single.
    reflexivity.
Qed.

Lemma distinct_NoDup (l : list string) : distinct l = true -> NoDup l.
Proof.
  induction l as [|x rest IH]; simpl; [constructor|].
  intros H. apply andb_true_iff in H. destruct H as [Hx Hrest].
  constructor; [|now apply IH].
  intros Hin. apply negb_true_iff in Hx.
  assert (existsb (String.eqb x) rest = true) as Hex; [|congruence].
  apply existsb_exists. exists x. split; [exact Hin | apply String.eqb_refl].
Qed.

Lemma sample_db_unique : NoDup (names sample_db).
Proof. apply distinct_NoDup. vm_compute. reflexivity. Qed.

(** [read_file] upserted again, with another schema text and embedding,
    into the table that already holds [SAMPLE_TOOLS]. *)
Lemma C8_upsert_keeps_names_unique_witness :
  NoDup (names (Populate.upsert read_file "{}" [Fin 0; Fin 1]
                  (upserts [] sample_db))) /\
  exists rowid,
    filter (fun r => name r =? Populate.name read_file)
           (tools (Populate.upsert read_file "{}" [Fin 0; Fin 1]
                     (upserts [] sample_db)))
    = [ {| id := rowid;
           name := Populate.name read_file;
           description := Populate.description read_file;
           server := Populate.server read_file;
           category := Some (Populate.category read_file);
           input_schema := "{}";
           embedding := Some [Fin 0; Fin 1] |} ].
Proof.
  apply (C8_upsert_keeps_names_unique [] read_file "{}" [Fin 0; Fin 1] sample_db).
  exact sample_db_unique.
Defined.

(** *** Schema fetch *)

Variable JSON_parse : string -> result value.

Lemma get_tool_found (w : world) (r : row) (schema : value) :
  where_name (name r) (tools (db w)) = Some r ->
  JSON_parse (input_schema r) = Ok schema ->
  get_tool JSON_parse (name r) w =
    (Ok (Obj [("name", Str (name r));
              ("description", Str (description r));
              ("server", Str (server r));
              ("category", text_or_null (category r));
              ("input_schema", Str (input_schema r));
              ("inputSchema", schema)]), w).
Proof.
  intros Hfind Hparse. unfold get_tool. now rewrite Hfind, Hparse.
Qed.

Lemma get_tool_absent (n : string) (w : world) :
  Forall (fun r => name r <> n) (tools (db w)) ->
  get_tool JSON_parse n w = (Ok (error "Tool not found"), w).
Proof.
  intros Habs. unfold get_tool, where_name.
  destruct (find _ (tools (db w))) as [r|] eqn:Hfind; [|reflexivity].
  apply find_some in Hfind. destruct Hfind as [Hin Heq].
  apply String.eqb_eq in Heq.
  rewrite Forall_forall in Habs. now apply Habs in Hin.
Qed.

Lemma where_name_unique (rows : list row) (r : row) :
  NoDup (map name rows) -> In r rows -> where_name (name r) rows = Some r.
Proof.
  unfold where_name. induction rows as [|a rows IH]; simpl; [tauto|].
  intros Hnd Hin. inversion Hnd as [|? ? Hnotin Hnd']; subst.
  destruct Hin as [->|Hin].
  - now rewrite String.eqb_refl.
  - destruct (String.eqb_spec (name a) (name r)) as [Heq|Hne].
    + exfalso. apply Hnotin. rewrite Heq. now apply in_map.
    + now apply IH.
Qed.

(** C10: for a record [r] of the catalog whose stored schema text parses,
    the answer of [GET /tool/:name] spreads the selected columns, so that
    it carries the raw text as [input_schema] next to the parsed document
    [inputSchema]. *)
Theorem C10_fetch_keeps_raw_column :
  forall (w : world) (r : row) (schema : value),
    NoDup (names (db w)) ->
    In r (tools (db w)) ->
    JSON_parse (input_schema r) = Ok schema ->
    exists response,
      get_tool JSON_parse (name r) w = (Ok response, w) /\
      get "input_schema" response = Some (Str (input_schema r)) /\
      get "inputSchema" response = Some schema /\
      keys response = ["name"; "description"; "server"; "category";
                       "input_schema"; "inputSchema"].
Proof.
  intros w r schema Hnd Hin Hparse.
  eexists. split.
  - apply get_tool_found; [|exact Hparse]. now apply where_name_unique.
  - repeat split.
Qed.
End CatalogClaims.

Section RoundTrip.
Import JS Sqlite Gateway Spec.
Variable pipeline : nat -> result model.
Variable JSON_stringify : value -> result string.
Variable JSON_parse : string -> result value.

(** Upserts of other names leave the row of [n] where it is, however the
    loop ends. *)
Lemma populate_loop_keeps (n : string) (embedder : model)
    (tools' : list Populate.tool) :
  Forall (fun u => Populate.name u <> n) tools' ->
  forall (count : Z) (d : database) (out : list string),
    where_name n
      (tools (snd (fst (Populate.populate_loop JSON_stringify embedder tools'
                          count d out))))
    = where_name n (tools d).
Proof.
  induction 1 as [|u rest Hu _ IH]; intros count d out; simpl; [reflexivity|].
  destruct (embedder _) as [data|]; [|reflexivity].
  destruct (JSON_stringify _) as [schema|]; [|reflexivity].
  rewrite IH. unfold Populate.upsert.
  apply insert_or_replace_other. congruence.
Qed.

(** A run of [populate] that reaches its end: what the loop returned, and
    the closing lines after it. *)
Lemma populate_with_completes (ts : list Populate.tool) (d d' : database)
    (count : Z) (out : list string) :
  Populate.populate_with pipeline JSON_stringify ts d = (Ok count, d', out) ->
  exists embedder out0,
    pipeline 1 = Ok embedder /\
    Populate.populate_loop JSON_stringify embedder ts 0%Z d
      ["Loading embedding model..."; ("Model loaded!" ++ Populate.newline)%string]
      = (Ok count, d', out0) /\
    out = out0 ++ Populate.closing_lines count.
Proof.
  unfold Populate.populate_with.
  destruct (pipeline 1) as [embedder|]; [|discriminate].
  cbn [app].
  destruct (Populate.populate_loop JSON_stringify embedder ts 0%Z d _)
    as [[[c|e] d1] out0] eqn:Hloop; [|discriminate].
  intros H. injection H as <- <- <-. exists embedder, out0.
  split; [reflexivity|]. split; [exact Hloop | reflexivity].
Qed.

(** Upserts of other names leave the row of [n] where it is. *)
Lemma upserts_keep (n : string)
    (ops : list (Populate.tool * string * Float32Array)) :
  Forall (fun op => Populate.name (op_tool op) <> n) ops ->
  forall d, where_name n (tools (upserts ops d)) = where_name n (tools d).
Proof.
  induction 1 as [|op ops Hop _ IH]; intros d; simpl; [reflexivity|].
  rewrite IH. unfold Populate.upsert. apply insert_or_replace_other.
  unfold op_tool in Hop. congruence.
Qed.

(** The table a loop leaves, however it ends, is the table after the
    upserts of the tools it got through, each with the text
    [JSON.stringify] gave for its schema. *)
Lemma populate_loop_upserts (embedder : model) (ts : list Populate.tool) :
  forall (count : Z) (d : database) (out : list string),
    exists ops rest,
      snd (fst (Populate.populate_loop JSON_stringify embedder ts count d out))
        = upserts ops d /\
      Forall (fun op => JSON_stringify (Populate.inputSchema (op_tool op))
                        = Ok (op_text op)) ops /\
      ts = map op_tool ops ++ rest.
Proof.
  induction ts as [|t ts IH]; intros count d out.
  - exists [], []. repeat split. constructor.
  - cbn [Populate.populate_loop].
    destruct (embedder _) as [data|].
    2:{ exists [], (t :: ts). repeat split. constructor. }
    destruct (JSON_stringify (Populate.inputSchema t)) as [schema|] eqn:Hs.
    2:{ exists [], (t :: ts). repeat split. constructor. }
    match goal with
    | |- context [Populate.populate_loop _ _ ts ?c ?d0 ?o] =>
        destruct (IH c d0 o) as (ops & rest & Hdb & Htexts & Hts)
    end.
    exists ((t, schema, data) :: ops), rest. split; [exact Hdb|]. split.
    + constructor; [exact Hs | exact Htexts].
    + simpl. now rewrite Hts.
Qed.
End RoundTrip.

Section SchemaFetch.
Import JS Sqlite Gateway Spec.

(** C7, as the code has it. (1) After the upsert of a tool [t] whose
    schema document [JSON.parse] reads back from the text
    [JSON.stringify] wrote for it, and after any further upserts of other
    names, the schema fetched under the name of [t] is that document.
    (2) The fetch of a name that no row bears answers [Tool not found].
    (3) The table a run of [populate] leaves, whether the run reaches its
    end or throws, is the table after such upserts, one for each tool it
    got through, in order. *)
Theorem C7_schema_round_trip :
  (forall (JSON_stringify : value -> result string)
          (JSON_parse : string -> result value)
          (t : Populate.tool) (text : string) (e : Float32Array)
          (ops : list (Populate.tool * string * Float32Array))
          (d : database) (w : world),
      JSON_stringify (Populate.inputSchema t) = Ok text ->
      JSON_parse text = Ok (Populate.inputSchema t) ->
      Forall (fun op => Populate.name (op_tool op) <> Populate.name t) ops ->
      db w = upserts ops (Populate.upsert t text e d) ->
      exists response,
        get_tool JSON_parse (Populate.name t) w = (Ok response, w) /\
        get "inputSchema" response = Some (Populate.inputSchema t)) /\
  (forall (JSON_parse : string -> result value) (n : string) (w : world),
      Forall (fun r => name r <> n) (tools (db w)) ->
      get_tool JSON_parse n w = (Ok (error "Tool not found"), w)) /\
  (forall (pipeline : nat -> result model)
          (JSON_stringify : value -> result string)
          (ts : list Populate.tool) (d : database),
      exists ops rest,
        snd (fst (Populate.populate_with pipeline JSON_stringify ts d))
          = upserts ops d /\
        Forall (fun op => JSON_stringify (Populate.inputSchema (op_tool op))
                          = Ok (op_text op)) ops /\
        ts = map op_tool ops ++ rest).
Proof.
  split; [|split].
  - intros JSON_stringify JSON_parse t text e ops d w Hs Hp Hops Hdb.
    pose proof (upserts_keep (Populate.name t) ops Hops
                  (Populate.upsert t text e d)) as Hrow.
    unfold Populate.upsert in Hrow at 2.
    rewrite insert_or_replace_lookup, <- Hdb in Hrow.
    match type of Hrow with
    | _ = Some ?r =>
        pose proof (get_tool_found JSON_parse w r (Populate.inputSchema t)
                      Hrow Hp) as Hget
    end.
    cbn [name stored_row] in Hget.
    eexists. split; [exact Hget | reflexivity].
  - intros JSON_parse n w. apply get_tool_absent.
  - intros pipeline JSON_stringify ts d. unfold Populate.populate_with.
    destruct (pipeline 1%nat) as [embedder|].
    2:{ exists [], ts. repeat split. constructor. }
    destruct (populate_loop_upserts JSON_stringify embedder ts 0%Z d
                (["Loading embedding model..."]
                 ++ [("Model loaded!" ++ Populate.newline)%string]))
      as (ops & rest & Hdb & Htexts & Hts).
    exists ops, rest. split; [|split; assumption].
    rewrite <- Hdb.
    now destruct (Populate.populate_loop JSON_stringify embedder ts 0%Z d _)
      as [[[c|e] d1] out0].
Qed.
End SchemaFetch.

Section CatalogInstances.
Import JS Sqlite Gateway Spec Fixture.

Lemma Forall_decide {A} (P : A -> Prop) (p : A -> bool) (l : list A) :
  (forall x, p x = true -> P x) -> forallb p l = true -> Forall P l.
Proof.
  intros Hp H. apply Forall_forall. intros x Hx.
  apply Hp. now apply (proj1 (forallb_forall _ _) H).
Qed.

Lemma read_file_stringified :
  Json.stringify (Populate.inputSchema read_file) = Ok read_file_text.
Proof. vm_compute. reflexivity. Qed.

Lemma read_file_parsed :
  Json.parse read_file_text = Ok (Populate.inputSchema read_file).
Proof. vm_compute. reflexivity. Qed.

(** The table [populate] fills from the empty one is the table after the
    upsert of [read_file] and the upserts of the eleven other tools. *)
Lemma sample_db_upserts :
  db (boot sample_db)
  = upserts other_ops
      (Populate.upsert read_file read_file_text [Fin 1; Fin 0] Sqlite.empty).
Proof. vm_compute. reflexivity. Qed.

(** [read_file] upserted first, the eleven other tools after it; then the
    schema of [read_file] and that of an unknown name fetched, with the
    reference serializer and parser. *)
Lemma C7_schema_round_trip_witness :
  (exists response,
      get_tool Json.parse (Populate.name read_file) (boot sample_db)
        = (Ok response, boot sample_db) /\
      get "inputSchema" response = Some (Populate.inputSchema read_file)) /\
  get_tool Json.parse "nonexistent_tool" (boot sample_db)
    = (Ok (error "Tool not found"), boot sample_db).
Proof.
  split.
  - apply (proj1 C7_schema_round_trip Json.stringify Json.parse read_file
             read_file_text [Fin 1; Fin 0] other_ops Sqlite.empty
             (boot sample_db)).
    + exact read_file_stringified.
    + exact read_file_parsed.
    + apply (Forall_decide _
               (fun op => negb (Populate.name (op_tool op)
                                =? Populate.name read_file))).
      * intros op Hop. now apply String.eqb_neq, negb_true_iff.
      * vm_compute. reflexivity.
    + exact sample_db_upserts.
  - apply (proj1 (proj2 C7_schema_round_trip) Json.parse "nonexistent_tool"
             (boot sample_db)).
    apply (Forall_decide _ (fun r => negb (name r =? "nonexistent_tool"))).
    + intros r Hr. now apply String.eqb_neq, negb_true_iff.
    + vm_compute. reflexivity.
Defined.

(** C7 as stated fails: the schema of [clamp] holds a [NaN], which
    [JSON.stringify] writes as [null]; the document fetched after the
    upsert holds [null] in its place. *)
Lemma C7_counterexample :
  Populate.inputSchema clamp
    = Obj [("type", Str "number"); ("minimum", Num NaN)] /\
  fetched_schema
    (fst (get_tool Json.parse "clamp"
            (boot (snd (fst (Populate.populate_with toy_pipeline
                               Json.stringify [clamp] Sqlite.empty))))))
    = Some (Obj [("type", Str "number"); ("minimum", Null)]).
Proof. split; [reflexivity | vm_compute; reflexivity]. Qed.

(** The fetch of [read_file] from the populated table. *)
Lemma C10_fetch_keeps_raw_column_witness :
  exists response,
    get_tool Json.parse (name read_file_row) (boot sample_db)
      = (Ok response, boot sample_db) /\
    get "input_schema" response = Some (Str (input_schema read_file_row)) /\
    get "inputSchema" response = Some (Populate.inputSchema read_file) /\
    keys response = ["name"; "description"; "server"; "category";
                     "input_schema"; "inputSchema"].
Proof.
  apply (C10_fetch_keeps_raw_column Json.parse (boot sample_db) read_file_row).
  - exact sample_db_unique.
  - vm_compute. tauto.
  - exact read_file_parsed.
Defined.
End CatalogInstances.


(* ===================================================================== *)
(** ** Further properties of the population script                        *)
(* ===================================================================== *)

Section PopulateFacts.
Import JS Sqlite Gateway Spec Scenario.
Variable pipeline : nat -> result model.
Variable JSON_stringify : value -> result string.

Lemma filter_filter_and {A} (p q : A -> bool) (l : list A) :
  filter p (filter q l) = filter (fun x => q x && p x) l.
Proof.
  induction l as [|a l IH]; simpl; [reflexivity|].
  destruct (q a); simpl; [|exact IH].
  destruct (p a); now rewrite IH.
Qed.

Lemma filter_all {A} (p : A -> bool) (l : list A) :
  (forall x, In x l -> p x = true) -> filter p l = l.
Proof.
  induction l as [|a l IH]; simpl; intros H; [reflexivity|].
  rewrite (H a) by now left. f_equal. apply IH. intros x Hx. apply H. now right.
Qed.

Lemma none_of_spec (ns : list string) (n : string) :
  none_of ns n = true <-> ~ In n ns.
Proof.
  unfold none_of. rewrite negb_true_iff. split.
  - intros H Hin.
    assert (existsb (String.eqb n) ns = true) as Hex; [|congruence].
    apply existsb_exists. exists n. split; [exact Hin | apply String.eqb_refl].
  - intros H. destruct (existsb (String.eqb n) ns) eqn:Hex; [|reflexivity].
    apply existsb_exists in Hex. destruct Hex as (x & Hx & Heq).
    apply String.eqb_eq in Heq. subst x. contradiction.
Qed.

(** The loop over [l1 ++ l2] is the loop over [l1] followed, unless it
    threw, by the loop over [l2]. *)
Lemma populate_loop_app (embedder : model) (l1 l2 : list Populate.tool) :
  forall (count : Z) (d : database) (out : list string),
    Populate.populate_loop JSON_stringify embedder (l1 ++ l2) count d out =
      match Populate.populate_loop JSON_stringify embedder l1 count d out with
      | (Ok count1, d1, out1) =>
          Populate.populate_loop JSON_stringify embedder l2 count1 d1 out1
      | (Throw e, d1, out1) => (Throw e, d1, out1)
      end.
Proof.
  induction l1 as [|t l1 IH]; intros count d out; simpl; [reflexivity|].
  destruct (embedder _) as [data|]; [|reflexivity].
  destruct (JSON_stringify _) as [schema|]; [|reflexivity].
  apply IH.
Qed.

Lemma populate_loop_names (embedder : model) (ts : list Populate.tool) :
  NoDup (map Populate.name ts) ->
  forall (count count' : Z) (d d' : database) (out out' : list string),
    Populate.populate_loop JSON_stringify embedder ts count d out
      = (Ok count', d', out') ->
    names d' = filter (none_of (map Populate.name ts)) (names d)
               ++ map Populate.name ts /\
    count' = (count + Z.of_nat (List.length ts))%Z.
Proof.
  induction ts as [|t ts IH]; intros Hnd count count' d d' out out'; simpl.
  - intros H. injection H as <- <- _. split; [|lia].
    rewrite app_nil_r. symmetry. now apply filter_all.
  - inversion Hnd as [|? ? Hnotin Hnd']; subst.
    destruct (embedder _) as [data|]; [|discriminate].
    destruct (JSON_stringify _) as [schema|]; [|discriminate].
    intros Hloop. apply (IH Hnd') in Hloop. destruct Hloop as [Hnames ->].
    split; [|lia].
    rewrite Hnames. unfold Populate.upsert.
    rewrite insert_or_replace_names, filter_app, filter_filter_and.
    simpl. apply none_of_spec in Hnotin. rewrite Hnotin.
    rewrite <- app_assoc. simpl. f_equal.
    apply filter_ext. intros n. unfold none_of. simpl.
    now rewrite negb_orb.
Qed.

(** X1. When [populate] runs to its end over tools of distinct names, the
    table holds the names it held before that are not names of the tools,
    in their order, followed by the names of the tools in the order of the
    list: nothing is duplicated, a tool already stored moves to the end.
    The count it reports is the number of tools. *)
Theorem populate_replaces_by_name :
  forall (ts : list Populate.tool) (d d' : database) (count : Z)
         (out : list string),
    NoDup (map Populate.name ts) ->
    Populate.populate_with pipeline JSON_stringify ts d = (Ok count, d', out) ->
    names d' = filter (none_of (map Populate.name ts)) (names d)
               ++ map Populate.name ts /\
    count = Z.of_nat (List.length ts).
Proof.
  intros ts d d' count out Hnd Hpop.
  destruct (populate_with_completes pipeline JSON_stringify ts d d' count out
              Hpop) as (embedder & out0 & _ & Hloop & _).
  destruct (populate_loop_names embedder ts Hnd _ _ _ _ _ _ Hloop) as [H1 H2].
  split; [exact H1 | lia].
Qed.

(** X2. After [populate] has run to its end on the empty table over tools
    of distinct names, [GET /health] of a gateway started on that table
    reports the count [populate] printed. *)
Theorem populate_then_health :
  forall (ts : list Populate.tool) (d' : database) (count : Z)
         (out : list string),
    NoDup (map Populate.name ts) ->
    Populate.populate_with pipeline JSON_stringify ts Sqlite.empty
      = (Ok count, d', out) ->
    get_health (boot d')
      = (Ok (Obj [("status", Str "ok"); ("tools", num_of_Z count)]), boot d').
Proof.
  intros ts d' count out Hnd Hpop.
  destruct (populate_with_completes pipeline JSON_stringify ts _ d' count out
              Hpop) as (embedder & out0 & _ & Hloop & _).
  destruct (populate_loop_names embedder ts Hnd _ _ _ _ _ _ Hloop)
    as [Hnames ->].
  unfold get_health. simpl. repeat f_equal.
  assert (List.length (names d') = List.length ts) as Hlen.
  { rewrite Hnames. simpl. now rewrite length_map. }
  unfold names in Hlen. now rewrite length_map in Hlen.
Qed.

(** X3. There is no transaction around the loop: when the model throws on
    a tool, [populate] ends with that error, the table is the one a run
    over the tools before it leaves, no later tool is looked at, and the
    console holds what that run prints, less its five closing lines. *)
Theorem populate_stops_at_first_throw :
  forall (embedder : model) (pre post : list Populate.tool) (t : Populate.tool)
         (e : string) (d d1 : database) (count : Z) (out1 : list string),
    pipeline 1 = Ok embedder ->
    embedder (text_of t) = Throw e ->
    Populate.populate_with pipeline JSON_stringify pre d = (Ok count, d1, out1) ->
    exists printed,
      Populate.populate_with pipeline JSON_stringify (pre ++ t :: post) d
        = (Throw e, d1, printed) /\
      out1 = printed ++ Populate.closing_lines count.
Proof.
  intros embedder pre post t e d d1 count out1 Hpipe Hthrow Hpre.
  destruct (populate_with_completes pipeline JSON_stringify pre d d1 count out1
              Hpre) as (embedder' & out0 & Hpipe' & Hloop & Hout).
  rewrite Hpipe in Hpipe'. injection Hpipe' as <-.
  exists out0. split; [|exact Hout].
  unfold Populate.populate_with. rewrite Hpipe, populate_loop_app.
  cbn [app]. rewrite Hloop.
  unfold text_of in Hthrow. cbn [Populate.populate_loop].
  now rewrite Hthrow.
Qed.
End PopulateFacts.

Section PopulateInstances.
Import JS Sqlite Gateway Spec Fixture Scenario.

Lemma sample_tools_distinct : NoDup (map Populate.name Populate.SAMPLE_TOOLS).
Proof. apply distinct_NoDup. vm_compute. reflexivity. Qed.

(** [populate] run a second time, on the table it has filled. *)
Lemma populate_replaces_by_name_witness :
  names (snd (fst (Populate.populate toy_pipeline Json.stringify sample_db)))
    = filter (none_of (map Populate.name Populate.SAMPLE_TOOLS)) (names sample_db)
      ++ map Populate.name Populate.SAMPLE_TOOLS /\
  12%Z = Z.of_nat (List.length Populate.SAMPLE_TOOLS).
Proof.
  apply (populate_replaces_by_name toy_pipeline Json.stringify
           Populate.SAMPLE_TOOLS sample_db
           (snd (fst (Populate.populate toy_pipeline Json.stringify sample_db)))
           12%Z
           (snd (Populate.populate toy_pipeline Json.stringify sample_db))).
  - exact sample_tools_distinct.
  - vm_compute. reflexivity.
Defined.

Lemma populate_then_health_witness :
  get_health (boot sample_db)
    = (Ok (Obj [("status", Str "ok"); ("tools", num_of_Z 12)]), boot sample_db).
Proof.
  apply (populate_then_health toy_pipeline Json.stringify
           Populate.SAMPLE_TOOLS sample_db 12%Z
           (snd (Populate.populate toy_pipeline Json.stringify Sqlite.empty))).
  - exact sample_tools_distinct.
  - vm_compute. reflexivity.
Defined.

(** The model rejects the text of [write_file]: [read_file] stays stored. *)
Lemma populate_stops_at_first_throw_witness :
  exists printed,
    Populate.populate_with picky_pipeline Json.stringify
      ([read_file] ++ write_file :: later_tools) Sqlite.empty
    = (Throw "Input too long",
       snd (fst (Populate.populate_with picky_pipeline Json.stringify
                   [read_file] Sqlite.empty)),
       printed) /\
    snd (Populate.populate_with picky_pipeline Json.stringify
           [read_file] Sqlite.empty)
    = printed ++ Populate.closing_lines 1.
Proof.
  apply (populate_stops_at_first_throw picky_pipeline Json.stringify
           picky_model [read_file] later_tools write_file "Input too long"
           Sqlite.empty).
  - reflexivity.
  - vm_compute. reflexivity.
  - vm_compute. reflexivity.
Defined.
End PopulateInstances.

(* ===================================================================== *)
(** ** Rowids                                                             *)
(* ===================================================================== *)

Section RowidFacts.
Import JS Sqlite Gateway Spec Scenario.

Lemma max_rowid_bound (rows : list row) (r : row) :
  In r rows -> (id r <= max_rowid rows)%Z.
Proof.
  induction rows as [|a rows IH]; simpl; [tauto|].
  intros [->|Hin]; [lia|]. apply IH in Hin. lia.
Qed.

Lemma StronglySorted_snoc {A} (R : A -> A -> Prop) (l : list A) (a : A) :
  StronglySorted R l -> Forall (fun x => R x a) l ->
  StronglySorted R (l ++ [a]).
Proof.
  induction 1 as [|b l Hs IH Hb]; intros Hall; simpl.
  - repeat constructor.
  - inversion Hall as [|? ? Hba Hall']; subst.
    constructor; [now apply IH|].
    apply Forall_app. split; [exact Hb | now constructor].
Qed.

Lemma ascending_filter (p : row -> bool) (rows : list row) :
  StronglySorted Z.lt (map id rows) ->
  StronglySorted Z.lt (map id (filter p rows)).
Proof.
  induction rows as [|a rows IH]; simpl; [trivial|].
  intros H. inversion H as [|? ? Hs Ha]; subst.
  destruct (p a); simpl; [|now apply IH].
  constructor; [now apply IH|].
  rewrite Forall_forall in *. intros x Hx. apply Ha.
  apply in_map_iff in Hx. destruct Hx as (r & <- & Hr).
  apply filter_In in Hr. apply in_map. tauto.
Qed.

Lemma rowid_fresh (d : database) (r : row) :
  In r (tools d) ->
  (id r < Z.max (sqlite_sequence d) (max_rowid (tools d)) + 1)%Z.
Proof. intros Hr. apply max_rowid_bound in Hr. lia. Qed.

Lemma upsert_rowids_grow (t : Populate.tool) (schema : string)
    (e : Float32Array) (d : database) :
  ascending_rowids d -> ascending_rowids (Populate.upsert t schema e d).
Proof.
  intros Hasc. unfold ascending_rowids, Populate.upsert, insert_or_replace.
  simpl. rewrite map_app. simpl.
  apply StronglySorted_snoc; [now apply ascending_filter|].
  apply Forall_forall. intros x Hx.
  apply in_map_iff in Hx. destruct Hx as (r & <- & Hr).
  apply filter_In in Hr. apply rowid_fresh. tauto.
Qed.

Lemma upserts_ascending (ops : list (Populate.tool * string * Float32Array))
    (d : database) :
  ascending_rowids d -> ascending_rowids (upserts ops d).
Proof.
  revert d. induction ops as [|op ops IH]; intros d Hd; simpl; [exact Hd|].
  apply IH. now apply upsert_rowids_grow.
Qed.

(** X4. AUTOINCREMENT under [INSERT OR REPLACE]: the row an upsert writes
    is the last of the table and its rowid is larger than the rowid of
    every row the table held, the replaced one included, so a tool that
    is upserted again changes its id; the rowids keep growing along the
    table. *)
Theorem upsert_takes_fresh_rowid :
  forall (t : Populate.tool) (schema : string) (e : Float32Array)
         (d : database),
    ascending_rowids d ->
    ascending_rowids (Populate.upsert t schema e d) /\
    exists kept written,
      tools (Populate.upsert t schema e d) = kept ++ [written] /\
      name written = Populate.name t /\
      Forall (fun r => (id r < id written)%Z) (tools d).
Proof.
  intros t schema e d Hasc. split; [now apply upsert_rowids_grow|].
  unfold Populate.upsert, insert_or_replace.
  eexists _, _. simpl. split; [reflexivity|]. split; [reflexivity|].
  apply Forall_forall. apply rowid_fresh.
Qed.

(** [read_file] upserted into the table of the two tools [zeta] and
    [alpha], stored under the rowids 1 and 2. *)
Lemma upsert_takes_fresh_rowid_witness :
  ascending_rowids (Populate.upsert Fixture.read_file "{}" [Fin 0; Fin 1]
                      Fixture.tie_db) /\
  exists kept written,
    tools (Populate.upsert Fixture.read_file "{}" [Fin 0; Fin 1]
             Fixture.tie_db) = kept ++ [written] /\
    name written = Populate.name Fixture.read_file /\
    Forall (fun r => (id r < id written)%Z) (tools Fixture.tie_db).
Proof.
  apply (upsert_takes_fresh_rowid Fixture.read_file "{}" [Fin 0; Fin 1]
           Fixture.tie_db).
  unfold ascending_rowids. vm_compute.
  repeat (constructor; try reflexivity).
Defined.
End RowidFacts.

(* ===================================================================== *)
(** ** Further properties of the search                                   *)
(* ===================================================================== *)

Section SearchMore.
Import JS Sqlite Gateway Spec Scenario.
Variable pipeline : nat -> result model.
Variable cos_sim : Float32Array -> Float32Array -> number.

Lemma map_throwing_throws {A B} (f : A -> result B) (m : string) (l : list A) :
  (forall a e, f a = Throw e -> e = m) ->
  (exists a, In a l /\ f a = Throw m) ->
  map_throwing f l = Throw m.
Proof.
  intros Hmsg. induction l as [|b l IH]; intros (a & Hin & Ha); simpl.
  - destruct Hin.
  - destruct (f b) as [y|e] eqn:Hb; simpl.
    + destruct Hin as [->|Hin]; [congruence|].
      rewrite IH by eauto. reflexivity.
    + now rewrite (Hmsg _ _ Hb).
Qed.

Lemma score_throws (q : Float32Array) (r : row) (e : string) :
  score cos_sim q r = Throw e -> e = buffer_from_null.
Proof.
  unfold score. destruct (embedding r); simpl; [discriminate|].
  intros H. now injection H as <-.
Qed.

(** X5. One row without embedding fails the whole search: whatever the
    other rows, the query and the limit, [POST /search] answers the error
    object carrying the message of [Buffer.from(null)], once the query is
    embedded. *)
Theorem search_fails_on_null_embedding :
  forall (text : string) (lim : option Z) (w w1 : world) (q : Float32Array)
         (r : row),
    text <> "" ->
    generateEmbedding pipeline text w = (Ok q, w1) ->
    In r (tools (db w)) ->
    embedding r = None ->
    post_search pipeline cos_sim {| query := Some text; limit := lim |} w
      = (Ok (error buffer_from_null), w1).
Proof.
  intros text lim w w1 q r Htext Hgen Hr Hnull.
  rewrite (post_search_unfold _ _ _ _ _ _ _ Htext Hgen).
  unfold searchTools.
  rewrite (map_throwing_throws (score cos_sim q) buffer_from_null).
  - reflexivity.
  - intros a e. apply score_throws.
  - exists r. split; [exact Hr|]. unfold score. now rewrite Hnull.
Qed.

(** X6. The answer to a smaller limit is the beginning of the answer to a
    larger one: for [0 <= N <= M], the search with limit [N] returns the
    first [N] entries of what the search with limit [M] returns. *)
Theorem search_limit_is_a_prefix :
  forall (q : Float32Array) (N M : Z) (d : database) (larger : list value),
    (0 <= N <= M)%Z ->
    searchTools cos_sim q (Some M) d = Ok larger ->
    searchTools cos_sim q (Some N) d = Ok (firstn (Z.to_nat N) larger).
Proof.
  intros q N M d larger HNM. unfold searchTools.
  destruct (map_throwing (score cos_sim q) (tools d)) as [scored|]; simpl;
    [|discriminate].
  intros H. injection H as <-. f_equal.
  unfold slice0.
  destruct (Z.ltb_spec N 0); [lia|]. destruct (Z.ltb_spec M 0); [lia|].
  rewrite firstn_firstn. f_equal. lia.
Qed.

Lemma NoDup_firstn {A} (n : nat) (l : list A) : NoDup l -> NoDup (firstn n l).
Proof.
  intros H. rewrite <- (firstn_skipn n l) in H.
  now apply NoDup_app_remove_r in H.
Qed.

Lemma scored_names (q : Float32Array) (rows : list row) (scored : list value) :
  Forall2 (fun r v => score cos_sim q r = Ok v) rows scored ->
  map (get "name") scored = map (fun r => Some (Str (name r))) rows.
Proof.
  induction 1 as [|r v rows scored Hrv _ IH]; simpl; [reflexivity|].
  destruct (score_inv _ _ _ _ Hrv) as (e & _ & ->). simpl. now rewrite IH.
Qed.

(** X7. On a table that satisfies its UNIQUE constraint, no two entries of
    a search result bear the same name, and each entry bears the name of a
    stored tool, whatever the limit. *)
Theorem search_names_distinct :
  forall (q : Float32Array) (lim : option Z) (d : database)
         (results : list value),
    NoDup (names d) ->
    searchTools cos_sim q lim d = Ok results ->
    NoDup (map (get "name") results) /\
    Forall (fun v => exists r, In r (tools d) /\
                               get "name" v = Some (Str (name r))) results.
Proof.
  intros q lim d results Hnd. unfold searchTools.
  destruct (map_throwing (score cos_sim q) (tools d)) as [scored|] eqn:Hs;
    simpl; [|discriminate].
  intros H. injection H as <-.
  pose proof (map_throwing_Forall2 _ _ _ Hs) as Hrows.
  destruct (slice0_firstn (sort by_similarity scored)
              (match lim with Some n => n | None => 5%Z end)) as [n ->].
  split.
  - rewrite <- firstn_map. apply NoDup_firstn.
    apply (Permutation_NoDup (l := map (get "name") scored)).
    + apply Permutation_map, Permutation_sym, stable_sort_perm.
    + rewrite (scored_names _ _ _ Hrows).
      unfold names in Hnd. rewrite <- (map_map name (fun n => Some (Str n))).
      apply Finite.Injective_map_NoDup; [|exact Hnd].
      intros x y Hxy. now injection Hxy.
  - apply Forall_forall. intros v Hv.
    assert (In v scored) as Hin.
    { apply (stable_sort_in behind). unfold sort in Hv.
      rewrite <- (firstn_skipn n (stable_sort _ scored)).
      apply in_or_app. now left. }
    destruct (Forall2_in_r _ _ _ _ Hrows Hin) as (r & Hr & Hscore).
    destruct (score_inv _ _ _ _ Hscore) as (e & _ & ->).
    exists r. split; [exact Hr | reflexivity].
Qed.
Lemma similarity_order_transitive :
  Relations_1.Transitive
    (fun a b : value => num_ge (similarity a) (similarity b)).
Proof.
  intros a b c. unfold num_ge.
  destruct (similarity a), (similarity b), (similarity c); try tauto.
  intros Hab Hbc. lra.
Qed.

Lemma StronglySorted_split {A} (R : A -> A -> Prop) (l1 l2 : list A) :
  StronglySorted R (l1 ++ l2) -> Forall (fun x => Forall (R x) l2) l1.
Proof.
  induction l1 as [|a l1 IH]; simpl; intros H; constructor.
  - inversion H as [|? ? _ Ha]; subst. apply Forall_app in Ha. tauto.
  - apply IH. now inversion H.
Qed.

(** X8. The search returns the most similar tools: when every similarity
    is a number, what a search returns and what it leaves out make up the
    scored table, and every returned entry is at least as similar to the
    query as every entry left out. *)
Theorem search_returns_the_most_similar :
  forall (q : Float32Array) (lim : option Z) (d : database)
         (results : list value),
    (forall r e, In r (tools d) -> embedding r = Some e -> cos_sim q e <> NaN) ->
    searchTools cos_sim q lim d = Ok results ->
    exists scored dropped,
      Forall2 (fun r v => score cos_sim q r = Ok v) (tools d) scored /\
      Permutation (results ++ dropped) scored /\
      Forall (fun x =>
                Forall (fun y => num_ge (similarity x) (similarity y)) dropped)
             results.
Proof.
  intros q lim d results Hfin. unfold searchTools.
  destruct (map_throwing (score cos_sim q) (tools d)) as [scored|] eqn:Hs;
    simpl; [|discriminate].
  intros H. injection H as <-.
  pose proof (map_throwing_Forall2 _ _ _ Hs) as Hrows.
  destruct (slice0_firstn (sort by_similarity scored)
              (match lim with Some n => n | None => 5%Z end)) as [n ->].
  exists scored, (skipn n (sort by_similarity scored)).
  split; [exact Hrows|]. split.
  - rewrite firstn_skipn. apply stable_sort_perm.
  - apply StronglySorted_split. rewrite firstn_skipn.
    apply Sorted_StronglySorted; [exact similarity_order_transitive|].
    apply ranked_sorted. intros v Hv.
    destruct (Forall2_in_r _ _ _ _ Hrows Hv) as (r & Hr & Hscore).
    destruct (score_inv _ _ _ _ Hscore) as (e & He & ->).
    unfold similarity. simpl. eapply Hfin; eauto.
Qed.

(** X9. On an empty catalog the search is no error: once the query is
    embedded, [POST /search] answers an empty [tools] list, whatever the
    limit. *)
Theorem search_of_empty_catalog :
  forall (text : string) (lim : option Z) (w w1 : world) (q : Float32Array),
    text <> "" ->
    generateEmbedding pipeline text w = (Ok q, w1) ->
    tools (db w) = [] ->
    post_search pipeline cos_sim {| query := Some text; limit := lim |} w
      = (Ok (Obj [("tools", Arr [])]), w1).
Proof.
  intros text lim w w1 q Htext Hgen Hempty.
  rewrite (post_search_unfold _ _ _ _ _ _ _ Htext Hgen).
  unfold searchTools. rewrite Hempty. simpl.
  unfold slice0. now rewrite firstn_nil.
Qed.
End SearchMore.

Section SearchMoreInstances.
Import JS Sqlite Gateway Spec Fixture Scenario.

Lemma top5_found :
  searchTools unit_cos_sim [Fin 1; Fin 0] (Some 5%Z) sample_db = Ok top5.
Proof. vm_compute. reflexivity. Qed.

(** A search on a table one row of which has no embedding. *)
Lemma search_fails_on_null_embedding_witness :
  post_search toy_pipeline unit_cos_sim
    {| query := Some "read a file"; limit := Some 1%Z |} (ready legacy_db)
  = (Ok (error buffer_from_null), ready legacy_db).
Proof.
  apply (search_fails_on_null_embedding toy_pipeline unit_cos_sim
           "read a file" (Some 1%Z) (ready legacy_db) (ready legacy_db)
           [Fin 1; Fin 0] legacy_row).
  - discriminate.
  - reflexivity.
  - vm_compute. tauto.
  - reflexivity.
Defined.

(** Limits 2 and 5 over [SAMPLE_TOOLS]. *)
Lemma search_limit_is_a_prefix_witness :
  searchTools unit_cos_sim [Fin 1; Fin 0] (Some 2%Z) sample_db
    = Ok (firstn (Z.to_nat 2) top5).
Proof.
  apply (search_limit_is_a_prefix unit_cos_sim [Fin 1; Fin 0] 2%Z 5%Z
           sample_db top5).
  - lia.
  - exact top5_found.
Defined.

Lemma search_names_distinct_witness :
  NoDup (map (get "name") top5) /\
  Forall (fun v => exists r, In r (tools sample_db) /\
                             get "name" v = Some (Str (name r))) top5.
Proof.
  apply (search_names_distinct unit_cos_sim [Fin 1; Fin 0] (Some 5%Z)
           sample_db top5).
  - exact sample_db_unique.
  - exact top5_found.
Defined.

Lemma search_returns_the_most_similar_witness :
  exists scored dropped,
    Forall2 (fun r v => score unit_cos_sim [Fin 1; Fin 0] r = Ok v)
            (tools sample_db) scored /\
    Permutation (top5 ++ dropped) scored /\
    Forall (fun x =>
              Forall (fun y => num_ge (similarity x) (similarity y)) dropped)
           top5.
Proof.
  apply (search_returns_the_most_similar unit_cos_sim [Fin 1; Fin 0]
           (Some 5%Z) sample_db top5).
  - exact sample_db_similarities.
  - exact top5_found.
Defined.

(** The first search of a gateway started on an empty table. *)
Lemma search_of_empty_catalog_witness :
  post_search toy_pipeline unit_cos_sim
    {| query := Some "read a file"; limit := None |} (ready Sqlite.empty)
  = (Ok (Obj [("tools", Arr [])]), ready Sqlite.empty).
Proof.
  apply (search_of_empty_catalog toy_pipeline unit_cos_sim "read a file" None
           (ready Sqlite.empty) (ready Sqlite.empty) [Fin 1; Fin 0]).
  - discriminate.
  - reflexivity.
  - reflexivity.
Defined.
End SearchMoreInstances.

(* ===================================================================== *)
(** ** Requests in sequence, and the state of the process                 *)
(* ===================================================================== *)

Section ProcessFacts.
Import JS Sqlite Gateway Spec Scenario.
Variable pipeline : nat -> result model.
Variable cos_sim : Float32Array -> Float32Array -> number.
Variable JSON_parse : string -> result value.

Lemma post_search_db (body : search_body) (w : world) :
  db (snd (post_search pipeline cos_sim body w)) = db w.
Proof.
  unfold post_search.
  destruct (negb (truthy (option_map Str (query body)))); [reflexivity|].
  pose proof (generateEmbedding_db pipeline
                (match query body with Some q => q | None => "" end) w) as H.
  destruct (generateEmbedding pipeline _ w) as [[qe|e] w1]; simpl in *;
    [|exact H].
  destruct (searchTools cos_sim qe _ (db w1)); exact H.
Qed.

(** X10. The gateway only reads the catalog: none of the five handlers
    changes the table, and all but [POST /search] leave the whole state of
    the process as it is. *)
Theorem gateway_never_writes_the_catalog :
  forall (params : list (string * string)) (sbody : search_body)
         (ebody : execute_body) (n : string) (w : world),
    snd (get_health w) = w /\
    snd (get_tools params w) = w /\
    snd (get_tool JSON_parse n w) = w /\
    snd (post_execute ebody w) = w /\
    db (snd (post_search pipeline cos_sim sbody w)) = db w.
Proof.
  intros params sbody ebody n w.
  split; [reflexivity|]. split; [reflexivity|]. split.
  - unfold get_tool. now destruct (where_name n (tools (db w))).
  - split; [|apply post_search_db].
    unfold post_execute.
    destruct (tool ebody) as [t|]; [|reflexivity].
    destruct (args ebody) as [a|]; [|reflexivity].
    now destruct (negb (truthy (Some t)) || negb (truthy (Some a))).
Qed.

(** With the model loaded, a search leaves the process as it is. *)
Lemma post_search_loaded (body : search_body) (w : world) (m : model) :
  embedder w = Some m -> snd (post_search pipeline cos_sim body w) = w.
Proof.
  intros Hm. unfold post_search.
  destruct (negb (truthy (option_map Str (query body)))); [reflexivity|].
  rewrite (generateEmbedding_ready pipeline _ w m Hm).
  destruct (m _) as [qe|e]; [|reflexivity].
  now destruct (searchTools cos_sim qe _ (db w)).
Qed.

Lemma serve_loaded (bodies : list search_body) (w : world) (m : model) :
  embedder w = Some m -> snd (serve pipeline cos_sim bodies w) = w.
Proof.
  intros Hm. induction bodies as [|body later IH]; simpl; [reflexivity|].
  pose proof (post_search_loaded body w m Hm) as Hw.
  destruct (post_search pipeline cos_sim body w) as [response w1].
  simpl in Hw. subst w1.
  destruct (serve pipeline cos_sim later w) as [responses w2]. exact IH.
Qed.

(** The first search with a query, on a process that has not loaded the
    model, when the load succeeds. *)
Lemma post_search_first_load (body : search_body) (w : world) (m : model) :
  embedder w = None ->
  pipeline (S (pipeline_calls w)) = Ok m ->
  has_query body = true ->
  embedder (snd (post_search pipeline cos_sim body w)) = Some m /\
  pipeline_calls (snd (post_search pipeline cos_sim body w))
    = S (pipeline_calls w).
Proof.
  intros Hnone Hload Hq. unfold post_search.
  unfold has_query in Hq. rewrite Hq. simpl.
  unfold generateEmbedding, getEmbedder, getEmbedder_enter.
  rewrite Hnone. simpl. rewrite Hload. simpl.
  destruct (m _) as [qe|e]; [|split; reflexivity].
  simpl. destruct (searchTools cos_sim qe _ _); split; reflexivity.
Qed.

Lemma post_search_no_query (body : search_body) (w : world) :
  has_query body = false ->
  post_search pipeline cos_sim body w = (Ok (error "Query required"), w).
Proof.
  intros Hq. unfold post_search. unfold has_query in Hq. now rewrite Hq.
Qed.

(** X11. Searches served one after the other load the model once: when
    the first load succeeds, a process that starts unloaded has invoked
    [pipeline] exactly once after any run of search requests at least one
    of which carries a query, and not at all when none does. *)
Theorem sequential_searches_load_once :
  forall (bodies : list search_body) (d : database) (m : model),
    pipeline 1 = Ok m ->
    pipeline_calls (snd (serve pipeline cos_sim bodies (boot d)))
      = if existsb has_query bodies then 1%nat else 0%nat.
Proof.
  intros bodies d m Hload.
  induction bodies as [|body later IH]; simpl; [reflexivity|].
  destruct (has_query body) eqn:Hq; simpl.
  - destruct (post_search_first_load body (boot d) m eq_refl Hload Hq)
      as [Hm Hcalls].
    destruct (post_search pipeline cos_sim body (boot d)) as [response w1].
    simpl in Hm, Hcalls.
    pose proof (serve_loaded later w1 m Hm) as Hw.
    destruct (serve pipeline cos_sim later w1) as [responses w2].
    simpl in Hw. subst w2. exact Hcalls.
  - rewrite (post_search_no_query body (boot d) Hq).
    destruct (serve pipeline cos_sim later (boot d)) as [responses w2].
    exact IH.
Qed.

Lemma serve_offline (msg : nat -> string) (bodies : list search_body) :
  (forall k, pipeline k = Throw (msg k)) ->
  forallb has_query bodies = true ->
  forall w, embedder w = None ->
    fst (serve pipeline cos_sim bodies w)
      = map (fun k => Ok (error (msg k)))
            (seq (S (pipeline_calls w)) (List.length bodies)) /\
    pipeline_calls (snd (serve pipeline cos_sim bodies w))
      = (pipeline_calls w + List.length bodies)%nat /\
    embedder (snd (serve pipeline cos_sim bodies w)) = None.
Proof.
  intros Hoff. induction bodies as [|body later IH]; simpl; intros Hq w Hnone.
  - repeat split; [lia | exact Hnone].
  - apply andb_true_iff in Hq. destruct Hq as [Hq Hlater].
    assert (post_search pipeline cos_sim body w
            = (Ok (error (msg (S (pipeline_calls w)))),
               {| db := db w; embedder := None;
                  console := console w
                             ++ ["Loading embedding model (one-time, ~22MB)..."];
                  pipeline_calls := S (pipeline_calls w) |})) as Hstep.
    { unfold post_search. unfold has_query in Hq. rewrite Hq. simpl.
      unfold generateEmbedding, getEmbedder, getEmbedder_enter.
      rewrite Hnone. simpl. rewrite Hoff. simpl. now rewrite Hnone. }
    rewrite Hstep.
    match goal with
    | |- context [serve pipeline cos_sim later ?w1] =>
        destruct (IH Hlater w1 eq_refl) as (Hr & Hc & He);
        destruct (serve pipeline cos_sim later w1) as [responses w2]
    end.
    simpl in *. rewrite Hr, Hc. repeat split; [lia | exact He].
Qed.

(** X12. A load that fails is not remembered: while [pipeline] keeps
    throwing, every search that carries a query invokes it again and is
    answered by the error object with the message of its own attempt, and
    [embedder] stays unset. *)
Theorem failed_load_is_retried :
  forall (msg : nat -> string) (bodies : list search_body) (d : database),
    (forall k, pipeline k = Throw (msg k)) ->
    forallb has_query bodies = true ->
    fst (serve pipeline cos_sim bodies (boot d))
      = map (fun k => Ok (error (msg k))) (seq 1 (List.length bodies)) /\
    pipeline_calls (snd (serve pipeline cos_sim bodies (boot d)))
      = List.length bodies /\
    embedder (snd (serve pipeline cos_sim bodies (boot d))) = None.
Proof.
  intros msg bodies d Hoff Hq.
  exact (serve_offline msg bodies Hoff Hq (boot d) eq_refl).
Qed.
End ProcessFacts.

Section OverlapFacts.
Import JS Sqlite Gateway Spec Scenario.
Variable pipeline : nat -> result model.

Lemma last_cons_default {A} (a d : A) (l : list A) :
  last (a :: l) d = last l a.
Proof.
  revert a d. induction l as [|b l IH]; intros a d; [reflexivity|].
  change (last (a :: b :: l) d) with (last (b :: l) d).
  now rewrite (IH b d), (IH b a).
Qed.

(** One call settles: [embedder] becomes the model of its load, and the
    other calls are as they were. *)
Lemma step_nth_settles (m : nat -> model) (calls : list call) :
  forall (i k : nat) (w : world),
    nth_error calls i = Some (Awaiting k) ->
    pipeline k = Ok (m k) ->
    embedder (snd (step_nth pipeline i calls w)) = Some (m k) /\
    forall j, j <> i ->
      nth_error (fst (step_nth pipeline i calls w)) j = nth_error calls j.
Proof.
  induction calls as [|c rest IH]; intros i k w Hi Hok.
  - destruct i; discriminate.
  - destruct i as [|i]; simpl in Hi |- *.
    + injection Hi as ->. cbn [step_call]. unfold getEmbedder_resume.
      rewrite Hok. cbn [fst snd]. split; [reflexivity|].
      intros [|j] Hj; [congruence | reflexivity].
    + destruct (IH i k w Hi Hok) as [Hemb Hrest].
      destruct (step_nth pipeline i rest w) as [rest' w1].
      cbn [fst snd] in *. split; [exact Hemb|].
      intros [|j] Hj; [reflexivity|]. simpl. apply Hrest. congruence.
Qed.

(** Calls that have all reached their [await] settle in any order: the
    variable ends with the model of the one that settles last. *)
Lemma settle_in_any_order (m : nat -> model) (order : list nat) :
  (forall k, pipeline k = Ok (m k)) ->
  NoDup order ->
  forall (calls : list call) (w : world),
    (forall i, In i order -> nth_error calls i = Some (Awaiting (S i))) ->
    embedder (snd (run pipeline order calls w))
      = last (map (fun i => Some (m (S i))) order) (embedder w).
Proof.
  intros Hok. induction 1 as [|i order Hnotin _ IH]; intros calls w Hwait;
    [reflexivity|].
  cbn [run map].
  destruct (step_nth_settles m calls i (S i) w (Hwait i (or_introl eq_refl))
              (Hok (S i))) as [Hemb Hrest].
  destruct (step_nth pipeline i calls w) as [calls' w1]. cbn [fst snd] in *.
  rewrite IH.
  - rewrite Hemb. now rewrite last_cons_default.
  - intros j Hj. rewrite Hrest; [apply Hwait; now right|].
    intros ->. contradiction.
Qed.

Lemma awaiting_nth (n i : nat) :
  (i < n)%nat -> nth_error (map Awaiting (seq 1 n)) i = Some (Awaiting (S i)).
Proof.
  intros Hi. rewrite nth_error_map.
  rewrite (nth_error_nth' (seq 1 n) 0%nat) by (rewrite length_seq; exact Hi).
  rewrite seq_nth by exact Hi. reflexivity.
Qed.

Lemma last_map_nonempty {A B} (f : A -> B) (l : list A) (a : A) (b : B) :
  l <> [] -> last (map f l) b = f (last l a).
Proof.
  induction l as [|x l IH]; intros Hl; [congruence|].
  destruct l as [|y l]; [reflexivity|].
  change (last (map f (x :: y :: l)) b) with (last (map f (y :: l)) b).
  change (last (x :: y :: l) a) with (last (y :: l) a).
  apply IH. discriminate.
Qed.

(** X13. Overlapping first calls overwrite one another: when every load
    succeeds and [n] calls of [getEmbedder] are issued before the model
    has loaded, then, in whatever order their loads settle, [embedder]
    holds after each settling the model of the load that settled last
    (call [i], counted from 0, awaits load [i + 1]); the models of the
    loads that settled before are held by their callers alone. *)
Theorem overlapping_loads_last_one_stays :
  forall (m : nat -> model) (d : database) (n : nat) (order : list nat),
    (forall k, pipeline k = Ok (m k)) ->
    NoDup order ->
    (forall i, In i order -> (i < n)%nat) ->
    order <> [] ->
    embedder (snd (run pipeline (seq 0 n ++ order) (repeat Called n) (boot d)))
      = Some (m (S (last order 0%nat))).
Proof.
  intros m d n order Hok Hnd Hlt Hne. rewrite run_app.
  destruct (all_enter pipeline n [] (boot d) eq_refl) as (w1 & Hrun & _).
  cbn [List.length app] in Hrun. rewrite Hrun. cbn [fst snd].
  change (pipeline_calls (boot d)) with 0%nat.
  rewrite (settle_in_any_order m order Hok Hnd).
  - now rewrite (last_map_nonempty _ order 0%nat).
  - intros i Hi. apply awaiting_nth. now apply Hlt.
Qed.
End OverlapFacts.

Section ProcessInstances.
Import JS Sqlite Gateway Spec Fixture Scenario.

(** Three searches, the first without a query. *)
Lemma sequential_searches_load_once_witness :
  pipeline_calls
    (snd (serve toy_pipeline unit_cos_sim
            [ {| query := None; limit := None |};
              {| query := Some "read a file"; limit := None |};
              {| query := Some "write a file"; limit := Some 2%Z |} ]
            (boot sample_db)))
  = if existsb has_query
         [ {| query := None; limit := None |};
           {| query := Some "read a file"; limit := None |};
           {| query := Some "write a file"; limit := Some 2%Z |} ]
    then 1%nat else 0%nat.
Proof.
  apply (sequential_searches_load_once toy_pipeline unit_cos_sim _ sample_db
           toy_model).
  reflexivity.
Defined.

(** Two searches while the model cannot be fetched. *)
Lemma failed_load_is_retried_witness :
  fst (serve offline_pipeline unit_cos_sim
         [ {| query := Some "read a file"; limit := None |};
           {| query := Some "write a file"; limit := None |} ]
         (boot sample_db))
    = map (fun k => Ok (error (attempt_failed k))) (seq 1 2) /\
  pipeline_calls
    (snd (serve offline_pipeline unit_cos_sim
            [ {| query := Some "read a file"; limit := None |};
              {| query := Some "write a file"; limit := None |} ]
            (boot sample_db)))
    = 2%nat /\
  embedder
    (snd (serve offline_pipeline unit_cos_sim
            [ {| query := Some "read a file"; limit := None |};
              {| query := Some "write a file"; limit := None |} ]
            (boot sample_db)))
    = None.
Proof.
  apply (failed_load_is_retried offline_pipeline unit_cos_sim attempt_failed
           [ {| query := Some "read a file"; limit := None |};
             {| query := Some "write a file"; limit := None |} ] sample_db).
  - intros k. reflexivity.
  - reflexivity.
Defined.

(** Three overlapping calls whose loads settle in the order third,
    first, second: the second load's model stays. *)
Lemma overlapping_loads_last_one_stays_witness :
  embedder (snd (run numbered_pipeline (seq 0 3 ++ [2; 0; 1]%nat)
                     (repeat Called 3) (boot sample_db)))
    = Some (numbered_model (S (last [2; 0; 1]%nat 0%nat))).
Proof.
  apply (overlapping_loads_last_one_stays numbered_pipeline numbered_model
           sample_db 3 [2; 0; 1]%nat).
  - intros k. reflexivity.
  - repeat constructor; simpl; intuition discriminate.
  - intros i Hi. simpl in Hi. destruct Hi as [<-|[<-|[<-|[]]]]; lia.
  - discriminate.
Defined.
End ProcessInstances.

(* ===================================================================== *)
(** ** From the population script to the search                          *)
(* ===================================================================== *)

Section EndToEnd.
Import JS Sqlite Gateway Spec Scenario.
Variable populate_pipeline : nat -> result model.
Variable JSON_stringify : value -> result string.
Variable pipeline : nat -> result model.
Variable cos_sim : Float32Array -> Float32Array -> number.

Lemma text_of_not_empty (t : Populate.tool) : text_of t <> "".
Proof.
  unfold text_of. destruct (Populate.name t); simpl; discriminate.
Qed.

(** A loop that completes has stored, for each tool that no later tool
    overwrites, the vector the model gave for the tool's text. *)
Lemma populate_loop_embeds (embedder : model) (t : Populate.tool)
    (post : list Populate.tool) :
  Forall (fun u => Populate.name u <> Populate.name t) post ->
  forall (pre : list Populate.tool) (count count' : Z) (d d' : database)
         (out out' : list string),
    Populate.populate_loop JSON_stringify embedder (pre ++ t :: post) count d out
      = (Ok count', d', out') ->
    exists r data,
      embedder (text_of t) = Ok data /\
      where_name (Populate.name t) (tools d') = Some r /\
      name r = Populate.name t /\
      embedding r = Some data.
Proof.
  intros Hpost pre count count' d d' out out'.
  rewrite populate_loop_app.
  destruct (Populate.populate_loop JSON_stringify embedder pre count d out)
    as [[[count1|e] d1] out1]; [|discriminate].
  cbn [Populate.populate_loop]. fold (text_of t).
  destruct (embedder (text_of t)) as [data|]; [|discriminate].
  destruct (JSON_stringify (Populate.inputSchema t)) as [schema|];
    [|discriminate].
  intros Hloop.
  match type of Hloop with
  | Populate.populate_loop _ _ _ ?c ?d0 ?o = _ =>
      pose proof (populate_loop_keeps JSON_stringify (Populate.name t)
                    embedder post Hpost c d0 o) as Hkeep
  end.
  rewrite Hloop in Hkeep. cbn [fst snd] in Hkeep.
  unfold Populate.upsert in Hkeep. rewrite insert_or_replace_lookup in Hkeep.
  eexists _, data. split; [reflexivity|]. split; [exact Hkeep|].
  split; reflexivity.
Qed.

Lemma Forall2_in_l {A B} (R : A -> B -> Prop) (l : list A) (bs : list B)
    (a : A) :
  Forall2 R l bs -> In a l -> exists b, In b bs /\ R a b.
Proof.
  induction 1 as [|a' b l' bs' Hab _ IH]; simpl; [tauto|].
  intros [<-|Hin].
  - exists b. auto.
  - destruct (IH Hin) as (b' & Hb' & HR). exists b'. auto.
Qed.

(** X14. A tool is found under its own text: when [populate] has run to
    its end with the model [m], and the gateway runs on that table with
    the same model loaded, a search for the text [populate] embedded for a
    tool [t] (its name, a space, its description) that leaves room for
    every record returns an entry named like [t] whose similarity is
    [cos_sim e e], [e] being the vector of that text. *)
Theorem stored_tool_found_by_its_text :
  forall (m : model) (pre post : list Populate.tool) (t : Populate.tool)
         (d d' : database) (count N : Z) (out : list string) (w : world)
         (e : Float32Array),
    populate_pipeline 1 = Ok m ->
    Populate.populate_with populate_pipeline JSON_stringify (pre ++ t :: post) d
      = (Ok count, d', out) ->
    Forall (fun u => Populate.name u <> Populate.name t) post ->
    db w = d' ->
    embedder w = Some m ->
    all_embedded d' ->
    (Z.of_nat (List.length (tools d')) <= N)%Z ->
    m (text_of t) = Ok e ->
    exists results entry,
      post_search pipeline cos_sim
        {| query := Some (text_of t); limit := Some N |} w
        = (Ok (Obj [("tools", Arr results)]), w) /\
      In entry results /\
      get "name" entry = Some (Str (Populate.name t)) /\
      similarity entry = cos_sim e e.
Proof.
  intros m pre post t d d' count N out w e Hpipe Hpop Hpost Hdb Hm Hemb HN He.
  destruct (populate_with_completes populate_pipeline JSON_stringify _ _ _ _ _
              Hpop) as (m' & out0 & Hpipe' & Hloop & _).
  rewrite Hpipe in Hpipe'. injection Hpipe' as <-.
  destruct (populate_loop_embeds m t post Hpost _ _ _ _ _ _ _ Hloop)
    as (r & data & Hdata & Hfind & Hname & Hvec).
  rewrite He in Hdata. injection Hdata as <-.
  apply find_some in Hfind. destruct Hfind as [Hin _].
  subst d'.
  destruct (scored_total cos_sim e (db w) Hemb) as [scored Hscored].
  pose proof (map_throwing_Forall2 _ _ _ Hscored) as Hrows.
  destruct (Forall2_in_l _ _ _ _ Hrows Hin) as (entry & Hentry & Hscore).
  destruct (score_inv _ _ _ _ Hscore) as (e' & He' & ->).
  rewrite Hvec in He'. injection He' as <-.
  eexists _, _. split; [|split; [|split]].
  - rewrite (post_search_unfold pipeline cos_sim (text_of t) (Some N) w w e).
    + rewrite (searchTools_unfold _ _ _ _ _ Hscored). reflexivity.
    + apply text_of_not_empty.
    + rewrite (generateEmbedding_ready pipeline _ w m Hm). now rewrite He.
  - rewrite slice0_all.
    + apply (stable_sort_in behind). exact Hentry.
    + unfold sort. rewrite stable_sort_length, <- (Forall2_length Hrows).
      exact HN.
  - simpl. now rewrite Hname.
  - reflexivity.
Qed.
End EndToEnd.

Section EndToEndInstances.
Import JS Sqlite Gateway Spec Fixture Scenario.

(** [read_file] searched for by its own text in the populated table. *)
Lemma stored_tool_found_by_its_text_witness :
  exists results entry,
    post_search toy_pipeline unit_cos_sim
      {| query := Some (text_of read_file); limit := Some 12%Z |}
      (ready sample_db)
      = (Ok (Obj [("tools", Arr results)]), ready sample_db) /\
    In entry results /\
    get "name" entry = Some (Str (Populate.name read_file)) /\
    similarity entry = unit_cos_sim [Fin 1; Fin 0] [Fin 1; Fin 0].
Proof.
  apply (stored_tool_found_by_its_text toy_pipeline Json.stringify toy_pipeline
           unit_cos_sim toy_model [] other_tools read_file Sqlite.empty
           sample_db 12%Z 12%Z
           (snd (Populate.populate toy_pipeline Json.stringify Sqlite.empty))).
  - reflexivity.
  - vm_compute. reflexivity.
  - apply (Forall_decide _ (fun u => negb (Populate.name u =? Populate.name read_file))).
    + intros u Hu. now apply String.eqb_neq, negb_true_iff.
    + vm_compute. reflexivity.
  - reflexivity.
  - reflexivity.
  - exact sample_db_embedded.
  - vm_compute. discriminate.
  - reflexivity.
Defined.
End EndToEndInstances.

Section FetchFrame.
Import JS Sqlite Gateway Spec Scenario.
Variable JSON_parse : string -> result value.

(** X15. An upsert touches one name only: the answer of
    [GET /tool/:name] for any other name is the same before and after the
    tool [t] is upserted. *)
Theorem upsert_leaves_other_fetches :
  forall (t : Populate.tool) (schema : string) (e : Float32Array)
         (w w' : world) (n : string),
    n <> Populate.name t ->
    db w' = Populate.upsert t schema e (db w) ->
    fst (get_tool JSON_parse n w') = fst (get_tool JSON_parse n w).
Proof.
  intros t schema e w w' n Hn Hdb. unfold get_tool.
  rewrite Hdb. unfold Populate.upsert.
  rewrite (insert_or_replace_other _ _ _ _ _ _ _ n Hn).
  now destruct (where_name n (tools (db w))).
Qed.

End FetchFrame.

Section FetchFrameInstances.
Import JS Sqlite Gateway Spec Scenario.

(** [write_file] fetched before and after [read_file] is upserted anew. *)
Lemma upsert_leaves_other_fetches_witness :
  fst (get_tool Json.parse "write_file"
         (boot (Populate.upsert Fixture.read_file "{}" [Fin 0; Fin 1]
                  (db (boot Fixture.sample_db)))))
  = fst (get_tool Json.parse "write_file" (boot Fixture.sample_db)).
Proof.
  apply (upsert_leaves_other_fetches Json.parse Fixture.read_file "{}"
           [Fin 0; Fin 1] (boot Fixture.sample_db) _ "write_file").
  - discriminate.
  - reflexivity.
Defined.
End FetchFrameInstances.
